(** * Sparse experience replay: the training driver of [main.py]

    A shallow embedding of [train], [save_checkpoint], [flat_accuracy],
    [test], [save_trainloss] and the [__main__] block of [main.py],
    together with the episodic memory they drive.

    Conventions.
    - Tensors are represented by their rows: a batch is the triple of
      parallel arrays the source unpacks, [squeeze(1)] only drops a
      singleton axis and is the identity on that representation.
    - Python floats ([loss.item()], accuracies) are the rationals they
      denote; the one float that is not a rational here, the [nan] of a
      zero by zero numpy division, is a constructor of its own.
    - Every call to a collaborator (memory, model, optimizer, checkpoint
      sink, plotting) is recorded in the trace of the run, in call order.
    - A Python exception ends the run; what was traced and mutated before
      it stays.
    - Moving model and tensors to the accelerator ([use_cuda]) changes
      nothing on this representation and is left out, as are the prints
      and the clock. *)

From Stdlib Require Import ZArith QArith Lia.
From Stdlib Require Import Ascii DecimalString DecimalPos DecimalZ.
From stdpp Require Import base option list gmap strings.

Local Open Scope nat_scope.

(** ** Examples and batches *)

Record Example := mkExample {
  content : list Z;
  attention_mask : list Z;
  label : Z
}.

(** The [(content, attn_masks, labels)] triple a data loader yields. *)
Record Batch := mkBatch {
  contents : list (list Z);
  attn_masks : list (list Z);
  labels : list Z
}.

(** [content.size(0)] *)
Definition size0 (b : Batch) : nat := length (contents b).

Fixpoint zip3 (cs ms : list (list Z)) (ls : list Z) : list Example :=
  match cs, ms, ls with
  | c :: cs', m :: ms', l :: ls' => mkExample c m l :: zip3 cs' ms' ls'
  | _, _, _ => []
  end.

(** [zip(contents, attn_masks, labels)] *)
Definition examples_of (b : Batch) : list Example :=
  zip3 (contents b) (attn_masks b) (labels b).

(** The batch made of a list of examples (three parallel arrays). *)
Definition batch_of (es : list Example) : Batch :=
  mkBatch (map content es) (map attention_mask es) (map label es).

(** ** Exceptions and the run monad *)

Inductive exn :=
| EmptyMemoryError
| ZeroDivisionError
| TypeError
| NameError
| FileNotFoundError
| ValueError.

Inductive outcome (A : Type) :=
| Ok (a : A)
| Raise (e : exn).
Arguments Ok {A} a.
Arguments Raise {A} e.

Inductive event :=
| EvPush (b : Batch)
| EvSample (held : list Example) (k : nat)
| EvUnpack (b : Batch)
| EvZeroGrad
| EvClassify (b : Batch)
| EvBackward
| EvOptStep
| EvSaveState
| EvSaveCheckpoint (order epoch : Z) (with_memory : bool)
| EvInfer (b : Batch)
| EvPlot
| EvSaveFig (path : string).

(** A computation over a mutable world [S]: it yields the calls it made,
    the world it leaves and either a value or the exception raised. *)
Definition M (S A : Type) : Type := S -> list event * S * outcome A.

Definition ret {S A} (a : A) : M S A := fun s => ([], s, Ok a).

Definition bind {S A B} (m : M S A) (k : A -> M S B) : M S B := fun s =>
  match m s with
  | (t1, s1, Ok a) =>
      match k a s1 with
      | (t2, s2, r) => (t1 ++ t2, s2, r)
      end
  | (t1, s1, Raise e) => (t1, s1, Raise e)
  end.

Definition raise {S A} (e : exn) : M S A := fun s => ([], s, Raise e).
Definition emit {S} (e : event) : M S unit := fun s => ([e], s, Ok tt).
Definition get {S} : M S S := fun s => ([], s, Ok s).
Definition modify {S} (f : S -> S) : M S unit := fun s => ([], f s, Ok tt).

Notation "'let*' x ':=' m 'in' k" := (bind m (fun x => k))
  (at level 10, x name, m at level 100, k at level 200).
Notation "m ';;' k" := (bind m (fun _ => k))
  (at level 100, k at level 200, right associativity).

Definition trace_of {S A} (r : list event * S * outcome A) : list event := r.1.1.
Definition world_of {S A} (r : list event * S * outcome A) : S := r.1.2.
Definition result_of {S A} (r : list event * S * outcome A) : outcome A := r.2.

(** ** Episodic memory *)

Module ReplayMemory.

(** Modelled from the spec: the class [ReplayMemory] of
    [baselines/replay.py] is imported by [main.py] but its file is not
    part of the sources.  The record holds the capacity [C], the stored
    examples (the attribute [memory] that [train] checkpoints) and the
    number [N] of examples ever observed. *)
Record t := mk {
  capacity : nat;
  memory : list Example;
  seen : nat
}.

(** Modelled from the spec: [ReplayMemory()], an empty memory of
    capacity [C]. *)
Definition create (C : nat) : t := mk C [] 0.

(** Modelled from the spec: reservoir insertion of one example, absent
    from the sources.  Before capacity is reached insertion always
    succeeds; after, with [N] the number of examples observed including
    this one, a draw [j] uniform in [0, N) replaces slot [j] when
    [j < C], that is a uniformly chosen slot with probability [C/N].
    [r] is the raw random number the draw is taken from. *)
Definition push_example (r : nat) (e : Example) (m : t) : t :=
  let n := S (seen m) in
  if length (memory m) <? capacity m
  then mk (capacity m) (memory m ++ [e]) n
  else
    let j := r mod n in
    if j <? capacity m
    then mk (capacity m) (<[j := e]> (memory m)) n
    else mk (capacity m) (memory m) n.

(** Modelled from the spec: the loop of [push] over the examples of a
    batch, absent from the sources.  Examples are inserted one by one;
    [d] counts the random numbers consumed from the source [rng]. *)
Fixpoint push_examples (rng : nat -> nat) (es : list Example)
    (m : t) (d : nat) : t * nat :=
  match es with
  | [] => (m, d)
  | e :: es' => push_examples rng es' (push_example (rng d) e m) (S d)
  end.

(** Modelled from the spec: [push(batch)], absent from the sources:
    for each example of the batch, reservoir insertion. *)
Definition push (rng : nat -> nat) (b : Batch) (m : t) (d : nat) : t * nat :=
  push_examples rng (examples_of b) m d.

(** Modelled from the spec: the draws of [sample], absent from the
    sources: [k] uniform draws with replacement from the stored
    examples. *)
Fixpoint draw (rng : nat -> nat) (k : nat) (held : list Example)
    (d : nat) : list Example :=
  match k with
  | 0 => []
  | S k' =>
      match held !! (rng d mod length held) with
      | Some e => e :: draw rng k' held (S d)
      | None => []
      end
  end.

(** Modelled from the spec: [sample(sample_size)], absent from the
    sources: exactly [sample_size] examples drawn uniformly with
    replacement from the current contents, the empty-memory error when
    nothing is stored; the memory is left unchanged. *)
Definition sample (rng : nat -> nat) (k : nat) (m : t) (d : nat)
    : outcome Batch * nat :=
  match memory m with
  | [] => (Raise EmptyMemoryError, d)
  | _ => (Ok (batch_of (draw rng k (memory m) d)), d + k)
  end.

End ReplayMemory.

(** ** Collaborators *)

(** The classifier model together with the optimizer that owns its
    parameters: the operations [train], [test] and [__main__] call on
    them.  [classify] is the loss of the forward pass ([loss.item()]; the
    logits it also returns are not used by [train]); [backward] is the
    gradient accumulation of [loss.backward()] for the forward pass on the
    given batch. *)
Class Classifier (Mdl Snapshot : Type) := {
  train_mode : Mdl -> Mdl;
  zero_grad : Mdl -> Mdl;
  classify : Mdl -> Batch -> Q;
  backward : Mdl -> Batch -> Mdl;
  opt_step : Mdl -> Mdl;
  save_state : Mdl -> Snapshot;
  infer : Mdl -> list (list Z) -> list (list Z) -> list (list Q)
}.

(** What a checkpoint file holds. *)
Inductive Blob (Snapshot : Type) :=
| ModelBlob (model_dict : Snapshot)
| MemoryBlob (examples : list Example).
Arguments ModelBlob {Snapshot} model_dict.
Arguments MemoryBlob {Snapshot} examples.

(** The command line: [--batch_size], [--mode], [--order], [--epochs]. *)
Record Args := mkArgs {
  batch_size : Z;
  mode : string;
  order : Z;
  epochs : Z
}.

(** Objects a module-level name can be bound to. *)
Inductive pyobj (Mdl Snapshot : Type) :=
| PyModule
| PyFunction
| PyValue
| PyMemoryClass
| PyModelClass (new : option (Blob Snapshot) -> Mdl).
Arguments PyModule {Mdl Snapshot}.
Arguments PyFunction {Mdl Snapshot}.
Arguments PyValue {Mdl Snapshot}.
Arguments PyMemoryClass {Mdl Snapshot}.
Arguments PyModelClass {Mdl Snapshot} new.

(** numpy floats: a rational or [nan]. *)
Inductive npfloat :=
| Fin (q : Q)
| NaN.

Definition np_add (a b : npfloat) : npfloat :=
  match a, b with
  | Fin x, Fin y => Fin (x + y)
  | _, _ => NaN
  end.

(** [a / n] for a positive Python int [n]. *)
Definition np_div_nat (a : npfloat) (n : nat) : npfloat :=
  match a with
  | Fin x => Fin (x / inject_Z (Z.of_nat n))
  | NaN => NaN
  end.

(** [str(n)] for a Python int. *)
Definition pystr (n : Z) : string := NilZero.string_of_int (Z.to_int n).

Definition MODEL_NAME : string := "REPLAY".
Definition REPLAY_FREQ : nat := 180.

(** ** The program *)

Section Program.

Context {Mdl Snapshot : Type} {cls : Classifier Mdl Snapshot}.

(** The source of random numbers of the run. *)
Variable rng : nat -> nat.

(** [data.DataLoader(DataSet(order, split), batch_size=...)]: the batches
    the loader yields, in order, for a task order, a split and a batch
    size.  Data loading is an external collaborator. *)
Variable DataLoader : Z -> string -> Z -> list Batch.

(** [ReplayModel(...)]: the model a call of the class builds.  The
    class comes from [baselines.replay]; the classifier is an external
    collaborator. *)
Variable ReplayModel : option (Blob Snapshot) -> Mdl.

(** Modelled from the spec: the capacity a memory built by
    [ReplayMemory()] has; the constructor is not part of the sources. *)
Variable default_capacity : nat.

(** The module-level names of [main.py]: its imports, its assignments
    and its function definitions. *)
Definition module_globals : gmap string (pyobj Mdl Snapshot) :=
  list_to_map
    [ ("torch", PyModule); ("data", PyModule); ("DataSet", PyValue);
      ("argparse", PyModule); ("ReplayMemory", PyMemoryClass);
      ("ReplayModel", PyModelClass ReplayModel);
      ("transformers", PyModule); ("trange", PyFunction);
      ("tqdm", PyFunction); ("time", PyModule); ("copy", PyModule);
      ("plt", PyModule); ("np", PyModule); ("os", PyModule);
      ("use_cuda", PyValue); ("parser", PyValue); ("args", PyValue);
      ("LEARNING_RATE", PyValue); ("MODEL_NAME", PyValue);
      ("REPLAY_FREQ", PyValue); ("train", PyFunction);
      ("save_checkpoint", PyFunction); ("flat_accuracy", PyFunction);
      ("test", PyFunction); ("save_trainloss", PyFunction) ].

(** The mutable objects of a run: the model (with its optimizer), the
    episodic memory, the position in the random source, the list
    [train_loss_set] and the file system. *)
Record World := mkWorld {
  model : Mdl;
  memory : ReplayMemory.t;
  draws : nat;
  train_loss_set : list Q;
  dirs : gset string;
  files : gmap string (Blob Snapshot)
}.

Definition set_model (m : Mdl) (w : World) : World :=
  mkWorld m (memory w) (draws w) (train_loss_set w) (dirs w) (files w).
Definition set_memory (m : ReplayMemory.t) (d : nat) (w : World) : World :=
  mkWorld (model w) m d (train_loss_set w) (dirs w) (files w).
Definition set_draws (d : nat) (w : World) : World :=
  mkWorld (model w) (memory w) d (train_loss_set w) (dirs w) (files w).
Definition set_train_loss_set (l : list Q) (w : World) : World :=
  mkWorld (model w) (memory w) (draws w) l (dirs w) (files w).
Definition set_dirs (ds : gset string) (w : World) : World :=
  mkWorld (model w) (memory w) (draws w) (train_loss_set w) ds (files w).
Definition set_files (fs : gmap string (Blob Snapshot)) (w : World) : World :=
  mkWorld (model w) (memory w) (draws w) (train_loss_set w) (dirs w) fs.

(** *** Calls to the collaborators *)

(** [memory.push(batch_cp)] *)
Definition memory_push (b : Batch) : M World unit := fun w =>
  match ReplayMemory.push rng b (memory w) (draws w) with
  | (m', d') => ([EvPush b], set_memory m' d' w, Ok tt)
  end.

(** [memory.sample(sample_size=k)]; the event records what the memory
    holds when the call is made. *)
Definition memory_sample (k : nat) : M World Batch := fun w =>
  match ReplayMemory.sample rng k (memory w) (draws w) with
  | (r, d') => ([EvSample (ReplayMemory.memory (memory w)) k], set_draws d' w, r)
  end.

(** Unpacking the live batch and squeezing its three tensors. *)
Definition unpack (b : Batch) : M World Batch := fun w =>
  ([EvUnpack b], w, Ok b).

(** [optimizer.zero_grad()] *)
Definition optimizer_zero_grad : M World unit := fun w =>
  ([EvZeroGrad], set_model (zero_grad (model w)) w, Ok tt).

(** [model.classify(content, attn_masks, labels)] *)
Definition model_classify (b : Batch) : M World Q := fun w =>
  ([EvClassify b], w, Ok (classify (model w) b)).

(** [loss.backward()], for the loss of the forward pass on [b] *)
Definition loss_backward (b : Batch) : M World unit := fun w =>
  ([EvBackward], set_model (backward (model w) b) w, Ok tt).

(** [optimizer.step()] *)
Definition optimizer_step : M World unit := fun w =>
  ([EvOptStep], set_model (opt_step (model w)) w, Ok tt).

(** [model.save_state()] *)
Definition model_save_state : M World Snapshot := fun w =>
  ([EvSaveState], w, Ok (save_state (model w))).

(** [model.infer(content.squeeze(1), attn_masks.squeeze(1))], under
    [torch.no_grad()] *)
Definition model_infer (b : Batch) : M World (list (list Q)) := fun w =>
  ([EvInfer b], w, Ok (infer (model w) (contents b) (attn_masks b))).

(** [os.path.exists(d)] then [os.mkdir(d)] when it does not.  The file
    system is taken to accept every write. *)
Definition ensure_dir (d : string) : M World unit := fun w =>
  if bool_decide (d ∈ dirs w) then ([], w, Ok tt)
  else ([], set_dirs ({[ d ]} ∪ dirs w) w, Ok tt).

Definition write_file (path : string) (b : Blob Snapshot) : M World unit :=
  modify (fun w => set_files (<[ path := b ]> (files w)) w).

(** [torch.load(path)] *)
Definition torch_load (path : string) : M World (Blob Snapshot) := fun w =>
  match files w !! path with
  | Some b => ([], w, Ok b)
  | None => ([], w, Raise FileNotFoundError)
  end.

(** [os.path.join(d, f)] for a [d] that does not end with a separator
    and a relative [f]. *)
Definition path_join (d f : string) : string := d +:+ "/" +:+ f.

(** *** [save_checkpoint] *)

Definition checkpoints_file (order epoch : Z) : string :=
  "classifier_order_" +:+ pystr order +:+ "_epoch_" +:+ pystr epoch +:+ ".pth".

(** [np.save] appends the extension [.npy] to a name that lacks it. *)
Definition memory_file (checkpoints_dir : string) (epoch : Z) : string :=
  checkpoints_dir +:+ "/epoch_" +:+ pystr epoch +:+ ".npy".

Definition save_checkpoint (model_dict : Snapshot) (order epoch : Z)
    (memory : option (list Example)) (base_loc : option string)
    : M World unit :=
  let base_loc := default "../model_checkpoints/" base_loc in
  emit (EvSaveCheckpoint order epoch
          (match memory with Some _ => true | None => false end)) ;;
  let checkpoints_dir := base_loc +:+ MODEL_NAME in
  ensure_dir checkpoints_dir ;;
  write_file (path_join checkpoints_dir (checkpoints_file order epoch))
             (ModelBlob model_dict) ;;
  match memory with
  | Some mem => write_file (memory_file checkpoints_dir epoch) (MemoryBlob mem)
  | None => ret tt
  end.

(** *** [save_trainloss] *)

(** A parameter that was not passed is [None]; [order] has no default.
    The calls that draw the figure are one event.  The last statement
    passes [savefig] two positional arguments, the list and the path,
    where it takes one: the call raises [TypeError] and saves
    nothing. *)
Definition save_trainloss (train_loss_set : list Q) (order : option Z)
    (base_loc : option string) : M World unit :=
  match order with
  | None => raise TypeError
  | Some order =>
      let base_loc := default "../loss_images/" base_loc in
      emit EvPlot ;;
      let image_dir := base_loc +:+ MODEL_NAME in
      ensure_dir image_dir ;;
      let path := image_dir +:+ "/order_" +:+ pystr order
                    +:+ "_train_loss.png" in
      (* plt.savefig(train_loss_set, path) *)
      raise TypeError
  end.

(** *** [train] *)

(** The tracking variables of an epoch. *)
Record Tracking := mkTracking {
  tr_loss : Q;
  nb_tr_examples : nat;
  nb_tr_steps : nat
}.

(** The body of the loop over the data loader, for the batch at
    position [step] of [enumerate]. *)
Definition train_step (step : nat) (batch : Batch) (tv : Tracking)
    : M World Tracking :=
  let batch_cp := batch in
  memory_push batch_cp ;;
  let* trained :=
    (if (step + 1) mod REPLAY_FREQ =? 0
     then memory_sample 64
     else unpack batch_cp) in
  optimizer_zero_grad ;;
  let* loss := model_classify trained in
  modify (fun w => set_train_loss_set (train_loss_set w ++ [loss]) w) ;;
  loss_backward trained ;;
  optimizer_step ;;
  ret (mkTracking (tr_loss tv + loss)%Q
                  (nb_tr_examples tv + size0 trained)
                  (nb_tr_steps tv + 1)).

(** [for step, batch in enumerate(train_dataloader)] *)
Fixpoint epoch_loop (step : nat) (batches : list Batch) (tv : Tracking)
    : M World Tracking :=
  match batches with
  | [] => ret tv
  | batch :: rest =>
      let* tv' := train_step step batch tv in
      epoch_loop (S step) rest tv'
  end.

(** One iteration of the loop over the epochs; it yields the tracking
    variables the epoch ends with. *)
Definition train_epoch (order : Z) (train_dataloader : list Batch)
    (epoch : nat) : M World Tracking :=
  modify (fun w => set_model (train_mode (model w)) w) ;;
  let* tv := epoch_loop 0 train_dataloader (mkTracking 0 0 0) in
  (* print(tr_loss / nb_tr_steps) *)
  (if nb_tr_steps tv =? 0 then raise ZeroDivisionError else ret tt) ;;
  let* model_dict := model_save_state in
  let* w := get in
  save_checkpoint model_dict order (Z.of_nat epoch + 1)
                  (Some (ReplayMemory.memory (memory w))) None ;;
  ret tv.

(** [for epoch in trange(args.epochs)] *)
Fixpoint epochs_loop (order : Z) (train_dataloader : list Batch)
    (epoch n : nat) : M World (list Tracking) :=
  match n with
  | 0 => ret []
  | S n' =>
      let* tv := train_epoch order train_dataloader epoch in
      let* tvs := epochs_loop order train_dataloader (S epoch) n' in
      ret (tv :: tvs)
  end.

(** [train(order, model, memory)]: the world holds [model] and
    [memory].  What [train] does before its loop over the epochs, moving
    the model to the accelerator, building the data loader and, from the
    named parameters of the classifier, the optimizer and its scheduler,
    reads the model without changing it and is not traced; the grouping
    of the parameters is [optimizer_grouped_parameters] below.  The
    value is the list of the tracking variables of the epochs, for the
    statements below; the Python function returns nothing. *)
Definition train (args : Args) (order : Z) : M World (list Tracking) :=
  let train_dataloader := DataLoader order "train" (batch_size args) in
  modify (set_train_loss_set []) ;;
  let* tvs := epochs_loop order train_dataloader 0 (Z.to_nat (epochs args)) in
  let* w := get in
  save_trainloss (train_loss_set w) None None ;;
  ret tvs.

(** *** [flat_accuracy] and [test] *)

(** Position of the first maximum of [row] after position [i], given
    the best position and value so far. *)
Fixpoint argmax_from (best_i : nat) (best : Q) (i : nat) (row : list Q) : nat :=
  match row with
  | [] => best_i
  | x :: row' =>
      if Qle_bool x best
      then argmax_from best_i best (S i) row'
      else argmax_from i x (S i) row'
  end.

(** [np.argmax] of one row: the first position of the maximum; numpy
    rejects an empty row. *)
Definition argmax (row : list Q) : outcome nat :=
  match row with
  | [] => Raise ValueError
  | x :: row' => Ok (argmax_from 0 x 1 row')
  end.

(** [np.argmax(preds, axis=1).flatten()] *)
Fixpoint argmax_rows (preds : list (list Q)) : outcome (list Z) :=
  match preds with
  | [] => Ok []
  | row :: preds' =>
      match argmax row with
      | Raise e => Raise e
      | Ok i =>
          match argmax_rows preds' with
          | Raise e => Raise e
          | Ok js => Ok (Z.of_nat i :: js)
          end
      end
  end.

(** [np.sum(pred_flat == labels_flat)] for arrays of one length *)
Fixpoint count_equal (pred_flat labels_flat : list Z) : nat :=
  match pred_flat, labels_flat with
  | p :: ps, l :: ls => (if Z.eqb p l then 1 else 0) + count_equal ps ls
  | _, _ => 0
  end.

(** [flat_accuracy(preds, labels)].  What numpy makes of two arrays of
    different lengths depends on its version; they are rejected here.
    An integer zero divided by zero is [nan] in numpy. *)
Definition flat_accuracy (preds : list (list Q)) (labels : list Z)
    : outcome npfloat :=
  match argmax_rows preds with
  | Raise e => Raise e
  | Ok pred_flat =>
      let labels_flat := labels in
      if length pred_flat =? length labels_flat
      then
        if length labels_flat =? 0 then Ok NaN
        else Ok (Fin (inject_Z (Z.of_nat (count_equal pred_flat labels_flat))
                      / inject_Z (Z.of_nat (length labels_flat))))
      else Raise ValueError
  end.

Definition lift {A} (r : outcome A) : M World A := fun w => ([], w, r).

(** The body of the loop of [test], on the pair
    [(total_correct, t_steps)]. *)
Definition test_step (batch : Batch) (acc : npfloat * nat)
    : M World (npfloat * nat) :=
  let* logits := model_infer batch in
  let* tmp_correct := lift (flat_accuracy logits (labels batch)) in
  ret (np_add acc.1 tmp_correct, acc.2 + 1).

Fixpoint test_loop (batches : list Batch) (acc : npfloat * nat)
    : M World (npfloat * nat) :=
  match batches with
  | [] => ret acc
  | batch :: rest =>
      let* acc' := test_step batch acc in
      test_loop rest acc'
  end.

(** [test(order, model)]: the world holds [model].  The value is the
    validation accuracy the function prints.  The loader shuffles: its
    batches are whatever [DataLoader] yields for the test split. *)
Definition test (args : Args) (order : Z) : M World npfloat :=
  let test_dataloader := DataLoader order "test" (batch_size args) in
  let* acc := test_loop test_dataloader (Fin 0, 0) in
  if acc.2 =? 0 then raise ZeroDivisionError
  else ret (np_div_nat acc.1 acc.2).

(** *** [__main__] *)

(** Calling the model class bound to a module-level name. *)
Definition new_model (name : string) (model_state : option (Blob Snapshot))
    : M World unit :=
  match module_globals !! name with
  | None => raise NameError
  | Some (PyModelClass new) => modify (set_model (new model_state))
  | Some _ => raise TypeError
  end.

Definition main (args : Args) : M World unit :=
  (if String.eqb (mode args) "train" then
     new_model "ReplayModel" None ;;
     modify (fun w => set_memory (ReplayMemory.create default_capacity)
                                 (draws w) w) ;;
     train args (order args) ;;
     ret tt
   else ret tt) ;;
  (if String.eqb (mode args) "test" then
     let* model_state :=
       torch_load "../model_checkpoints/enc_dec/classifier_order_1_epoch_4.pth" in
     new_model "EncDec" (Some model_state) ;;
     test args (order args) ;;
     ret tt
   else ret tt).

End Program.

(** ** Concrete collaborators and inputs *)

Module Toy.

(** A model that counts the optimizer steps applied to it; its loss is
    the size of the batch and its logits are the tokens of the content. *)
#[global] Instance counting : Classifier nat nat := {|
  train_mode m := m;
  zero_grad m := m;
  classify m b := inject_Z (Z.of_nat (size0 b));
  backward m b := m;
  opt_step m := S m;
  save_state m := m;
  infer m cs ms := map (map inject_Z) cs
|}.

(** The batch of the single example with token and label [i]. *)
Definition single (i : nat) : Batch :=
  mkBatch [[Z.of_nat i]] [[1%Z]] [Z.of_nat i].

(** [n] distinct single-example batches, numbered from 1. *)
Definition singles (n : nat) : list Batch := map single (seq 1 n).

(** A batch of [n] copies of one example. *)
Definition uniform (n : nat) : Batch :=
  mkBatch (replicate n [0%Z]) (replicate n [1%Z]) (replicate n 0%Z).

Definition world (C : nat) : World (Mdl := nat) (Snapshot := nat) :=
  mkWorld 0 (ReplayMemory.create C) 0 [] ∅ ∅.

(** A loader that yields [train] for the training split and [held_out]
    for the test split. *)
Definition loader (train held_out : list Batch) : Z -> string -> Z -> list Batch :=
  fun _ split _ => if String.eqb split "train" then train else held_out.

Definition args (mode : string) (epochs : Z) : Args := mkArgs 32 mode 1 epochs.

(** Four held-out batches with accuracies 1, 1/2, 0 and 2/3. *)
Definition held_out4 : list Batch :=
  [ mkBatch [[0; 5]; [7; 1]] [[1; 1]; [1; 1]] [1; 0];
    mkBatch [[0; 5]; [7; 1]] [[1; 1]; [1; 1]] [1; 1];
    mkBatch [[3; 3]] [[1; 1]] [1];
    mkBatch [[1; 2; 3]; [3; 2; 1]; [1; 3; 2]] [[1; 1; 1]; [1; 1; 1]; [1; 1; 1]] [2; 0; 0] ]%Z.

End Toy.

(** ** Observations on traces *)

Inductive source := FromStream | FromMemory.

#[global] Instance source_eq_dec : EqDecision source.
Proof. solve_decision. Defined.

(** The batch a step trains on comes from the branch of the conditional
    that ran: [memory.sample] or the unpacking of the live batch. *)
Definition source_of (e : event) : option source :=
  match e with
  | EvSample _ _ => Some FromMemory
  | EvUnpack _ => Some FromStream
  | _ => None
  end.

(** The sources of the training batches of the steps of a trace, in
    step order. *)
Definition step_sources (t : list event) : list source := omap source_of t.

(** How many steps of a list of sources took their batch from [s]. *)
Definition count_source (s : source) (l : list source) : nat :=
  length (filter (fun x => x = s) l).

(** The 1-based indices of the steps that took their batch from memory,
    the first step having index [i]. *)
Fixpoint replay_indices (i : nat) (l : list source) : list nat :=
  match l with
  | [] => []
  | FromMemory :: l' => i :: replay_indices (S i) l'
  | FromStream :: l' => replay_indices (S i) l'
  end.

(** The source the replay period prescribes for the step of 1-based
    index [i]. *)
Definition scheduled (i : nat) : source :=
  if i mod REPLAY_FREQ =? 0 then FromMemory else FromStream.

(** The batches handed to [memory.push], in call order. *)
Definition pushed_batches (t : list event) : list Batch :=
  omap (fun e => match e with EvPush b => Some b | _ => None end) t.

(** The batches handed to [model.classify], in call order. *)
Definition classified_batches (t : list event) : list Batch :=
  omap (fun e => match e with EvClassify b => Some b | _ => None end) t.

(** What the memory held at each call of [memory.sample]. *)
Definition sampled_from (t : list event) : list (list Example) :=
  omap (fun e => match e with EvSample held _ => Some held | _ => None end) t.

(** The calls on the model and its optimizer, in call order. *)
Definition is_model_call (e : event) : bool :=
  match e with
  | EvZeroGrad | EvClassify _ | EvBackward | EvOptStep => true
  | _ => false
  end.

Definition model_calls (t : list event) : list event := List.filter is_model_call t.

Definition is_opt_step (e : event) : bool :=
  match e with EvOptStep => true | _ => false end.

(** The number of optimizer updates of a trace. *)
Definition optimizer_updates (t : list event) : nat :=
  length (List.filter is_opt_step t).

(** The calls a training step makes on model and optimizer for the batch
    it trains on. *)
Definition update_calls (trained : Batch) : list event :=
  [EvZeroGrad; EvClassify trained; EvBackward; EvOptStep].

(** The directory [save_checkpoint] writes to when [base_loc] is left to
    its default. *)
Definition checkpoints_root : string := "../model_checkpoints/" +:+ MODEL_NAME.

(** The file of the model checkpoint of [(order, epoch)]. *)
Definition model_path (order epoch : Z) : string :=
  path_join checkpoints_root (checkpoints_file order epoch).

(** The file of the memory checkpoint of [epoch]. *)
Definition memory_path (epoch : Z) : string :=
  memory_file checkpoints_root epoch.

(** The calls of [save_checkpoint], in call order: order, epoch and
    whether a memory was passed. *)
Definition checkpoints (t : list event) : list (Z * Z * bool) :=
  omap (fun e => match e with
                 | EvSaveCheckpoint o n m => Some (o, n, m)
                 | _ => None
                 end) t.

(** The number of calls that draw or save the loss plot. *)
Definition plots (t : list event) : nat :=
  length (List.filter (fun e => match e with
                               | EvPlot | EvSaveFig _ => true
                               | _ => false
                               end) t).

(** The number of forward passes of the evaluator. *)
Definition inferences (t : list event) : nat :=
  length (List.filter (fun e => match e with EvInfer _ => true | _ => false end) t).

(** [argmax] on a row that is not empty. *)
Definition argmax_index (row : list Q) : nat :=
  match row with
  | [] => 0
  | x :: row' => argmax_from 0 x 1 row'
  end.

(** The accuracy of a batch in the words of the specification:
    [count(argmax(prediction) == label) / batch_size]. *)
Definition batch_accuracy (preds : list (list Q)) (labels : list Z) : Q :=
  inject_Z (Z.of_nat
    (count_equal (map (fun row => Z.of_nat (argmax_index row)) preds) labels))
  / inject_Z (Z.of_nat (length labels)).

(** The unweighted arithmetic mean. *)
Definition mean (l : list Q) : Q :=
  fold_right Qplus 0%Q l / inject_Z (Z.of_nat (length l)).

(** The accuracy of a held-out batch under a model. *)
Definition accuracy_under {Mdl Snapshot : Type} {cls : Classifier Mdl Snapshot}
    (m : Mdl) (b : Batch) : Q :=
  batch_accuracy (infer m (contents b) (attn_masks b)) (labels b).

(** A held-out batch the model answers in shape: it has labels, one row
    of logits per label and no row without classes. *)
Definition well_shaped {Mdl Snapshot : Type} {cls : Classifier Mdl Snapshot}
    (m : Mdl) (b : Batch) : Prop :=
  labels b <> [] /\
  length (infer m (contents b) (attn_masks b)) = length (labels b) /\
  Forall (fun row => row <> []) (infer m (contents b) (attn_masks b)).

(** The character [c] does not occur in [s]. *)
Fixpoint free_of (c : ascii) (s : string) : Prop :=
  match s with
  | EmptyString => True
  | String a s' => a <> c /\ free_of c s'
  end.

(** A batch that holds at least one example. *)
Definition nonempty (b : Batch) : Prop := examples_of b ≠ [].

(** A world whose episodic memory has room for at least one example. *)
Definition can_store {Mdl Snapshot : Type} (w : @World Mdl Snapshot) : Prop :=
  0 < ReplayMemory.capacity (memory w).

(** The memory of a world after [memory.push(b)]. *)
Definition memory_after_push {Mdl Snapshot : Type} (rng : nat -> nat)
    (b : Batch) (w : @World Mdl Snapshot) : ReplayMemory.t :=
  (ReplayMemory.push rng b (memory w) (draws w)).1.

(** The model of a world after one update on the batch [trained]. *)
Definition model_after_update {Mdl Snapshot : Type} {cls : Classifier Mdl Snapshot}
    (trained : Batch) (m : Mdl) : Mdl :=
  opt_step (backward (zero_grad m) trained).

(** What one iteration of the training loop did: its 1-based index, the
    live batch it pulled, what the memory stored after the push of that
    batch, where its training batch came from and the training batch
    itself. *)
Record step_view := mkView {
  sv_index : nat;
  sv_live : Batch;
  sv_held : list Example;
  sv_source : source;
  sv_trained : Batch
}.

(** The calls of such an iteration, in call order. *)
Definition step_events (v : step_view) : list event :=
  EvPush (sv_live v)
    :: match sv_source v with
       | FromMemory => EvSample (sv_held v) 64
       | FromStream => EvUnpack (sv_live v)
       end
    :: update_calls (sv_trained v).

(** A view of an iteration that completed: the memory stored something
    after the push; the source is the one the replay period prescribes;
    a live step trains on the live batch and a replay step on 64 sampled
    examples. *)
Definition view_ok (v : step_view) : Prop :=
  sv_held v <> [] /\
  sv_source v = scheduled (sv_index v) /\
  (sv_source v = FromStream -> sv_trained v = sv_live v) /\
  (sv_source v = FromMemory -> size0 (sv_trained v) = 64).

(** ** The parameter groups of the optimizer *)

(** [nd in n] on two strings: [nd] occurs in [n] as a substring. *)
Fixpoint contains (nd n : string) : bool :=
  String.prefix nd n
  || match n with
     | EmptyString => false
     | String _ n' => contains nd n'
     end.

(** The names of [train] that mark a parameter as not decayed. *)
Definition no_decay : list string := ["bias"; "gamma"; "beta"].

(** [any(nd in n for nd in no_decay)] *)
Definition any_no_decay (n : string) : bool :=
  existsb (fun nd => contains nd n) no_decay.

(** One dictionary of [optimizer_grouped_parameters]. *)
Record param_group (P : Type) := mkGroup {
  params : list P;
  weight_decay_rate : Q
}.
Arguments mkGroup {P} params weight_decay_rate.
Arguments params {P} p.
Arguments weight_decay_rate {P} p.

(** [optimizer_grouped_parameters] of [train], for the named parameters
    [param_optimizer] of the classifier. *)
Definition optimizer_grouped_parameters {P : Type}
    (param_optimizer : list (string * P)) : list (param_group P) :=
  [ mkGroup (map snd (List.filter (fun np => negb (any_no_decay np.1))
                                  param_optimizer)) (1 # 100);
    mkGroup (map snd (List.filter (fun np => any_no_decay np.1)
                                  param_optimizer)) 0 ].

(** The checkpoint file the [test] branch of [__main__] loads. *)
Definition test_checkpoint : string :=
  "../model_checkpoints/enc_dec/classifier_order_1_epoch_4.pth".

(** The directory [save_checkpoint] writes to for a given [base_loc]. *)
Definition checkpoints_dir_of (base_loc : option string) : string :=
  default "../model_checkpoints/" base_loc +:+ MODEL_NAME.

(** The sum of a list of rationals. *)
Definition Qsum (l : list Q) : Q := fold_right Qplus 0%Q l.

(** The batches the steps of the loop train on, computed from the
    memory alone: the step at position [step] pushes its live batch and
    then trains on what [memory.sample] returns from the memory and the
    random position the push left, when the replay period triggers, and
    on the live batch otherwise. *)
Fixpoint trained_batches (rng : nat -> nat) (step : nat) (batches : list Batch)
    (m : ReplayMemory.t) (d : nat) : list Batch :=
  match batches with
  | [] => []
  | b :: rest =>
      match ReplayMemory.push rng b m d with
      | (m', d') =>
          if (step + 1) mod REPLAY_FREQ =? 0
          then
            match ReplayMemory.sample rng 64 m' d' with
            | (Ok sampled, d'') =>
                sampled :: trained_batches rng (S step) rest m' d''
            | (Raise _, _) => []
            end
          else b :: trained_batches rng (S step) rest m' d'
      end
  end.

(** The losses of a sequence of updates that starts from the model [m]:
    each is the loss [classify] computes, on the model as
    [zero_grad] left it, for the batch of its update. *)
Fixpoint losses_of {Mdl Snapshot : Type} {cls : Classifier Mdl Snapshot}
    (m : Mdl) (trained : list Batch) : list Q :=
  match trained with
  | [] => []
  | tb :: rest =>
      classify (zero_grad m) tb
        :: losses_of (opt_step (backward (zero_grad m) tb)) rest
  end.

(** * Properties *)

(** ** The episodic memory *)

Section MemoryFacts.

Import ReplayMemory.

Lemma push_example_capacity r e m :
  capacity (push_example r e m) = capacity m.
Proof.
  unfold push_example.
  destruct (length (memory m) <? capacity m); [reflexivity|].
  destruct (r mod S (seen m) <? capacity m); reflexivity.
Qed.

Lemma push_example_seen r e m : seen (push_example r e m) = S (seen m).
Proof.
  unfold push_example.
  destruct (length (memory m) <? capacity m); [reflexivity|].
  destruct (r mod S (seen m) <? capacity m); reflexivity.
Qed.

(** One insertion grows the store by one while there is room and keeps
    its size afterwards. *)
Lemma push_example_length r e m :
  length (memory (push_example r e m)) =
  if length (memory m) <? capacity m
  then S (length (memory m)) else length (memory m).
Proof.
  unfold push_example.
  destruct (length (memory m) <? capacity m); cbn [memory].
  - rewrite length_app. cbn [length]. lia.
  - destruct (r mod S (seen m) <? capacity m); cbn [memory]; [|reflexivity].
    apply length_insert.
Qed.

Lemma push_example_bounded r e m :
  length (memory m) <= capacity m ->
  length (memory (push_example r e m)) <= capacity (push_example r e m).
Proof.
  intros Hle. rewrite push_example_capacity, push_example_length.
  destruct (Nat.ltb_spec (length (memory m)) (capacity m)); lia.
Qed.

Lemma push_examples_capacity rng es : forall m d,
  capacity (push_examples rng es m d).1 = capacity m.
Proof.
  induction es as [|e es IH]; intros m d; simpl; [reflexivity|].
  rewrite IH. apply push_example_capacity.
Qed.

Lemma push_examples_bounded rng es : forall m d,
  length (memory m) <= capacity m ->
  length (memory (push_examples rng es m d).1) <= capacity m.
Proof.
  induction es as [|e es IH]; intros m d Hle; simpl; [exact Hle|].
  rewrite <- (push_example_capacity (rng d) e m).
  apply IH, push_example_bounded, Hle.
Qed.

(** The size of the store after a run of insertions. *)
Lemma push_examples_length rng es : forall m d,
  length (memory m) <= capacity m ->
  length (memory (push_examples rng es m d).1) =
  Nat.min (capacity m) (length (memory m) + length es).
Proof.
  induction es as [|e es IH]; intros m d Hle; simpl.
  - lia.
  - rewrite IH by (apply push_example_bounded, Hle).
    rewrite push_example_capacity, push_example_length.
    destruct (Nat.ltb_spec (length (memory m)) (capacity m)); lia.
Qed.

(** While there is room every example is appended. *)
Lemma push_examples_room rng es : forall m d,
  length (memory m) + length es <= capacity m ->
  memory (push_examples rng es m d).1 = memory m ++ es.
Proof.
  induction es as [|e es IH]; intros m d Hroom; simpl in *.
  - by rewrite app_nil_r.
  - assert (Hlt : (length (memory m) <? capacity m) = true)
      by (apply Nat.ltb_lt; lia).
    rewrite IH.
    + unfold push_example. rewrite Hlt. simpl. by rewrite <- app_assoc.
    + rewrite push_example_capacity, push_example_length, Hlt. lia.
Qed.

Lemma push_example_stored r e m :
  0 < capacity m -> memory (push_example r e m) <> [].
Proof.
  intros Hc Hnil. apply (f_equal length) in Hnil.
  rewrite push_example_length in Hnil. simpl in Hnil.
  destruct (Nat.ltb_spec (length (memory m)) (capacity m)); lia.
Qed.

Lemma push_example_keeps r e m :
  memory m <> [] -> memory (push_example r e m) <> [].
Proof.
  intros Hne Hnil. apply (f_equal length) in Hnil.
  rewrite push_example_length in Hnil. simpl in Hnil.
  destruct (memory m) eqn:E; [done|]. simpl in Hnil.
  destruct (_ <? _); lia.
Qed.

Lemma push_examples_keeps rng es : forall m d,
  memory m <> [] -> memory (push_examples rng es m d).1 <> [].
Proof.
  induction es as [|e es IH]; intros m d Hne; simpl; [exact Hne|].
  apply IH, push_example_keeps, Hne.
Qed.

(** A memory with room for at least one example is not empty after a
    batch with at least one example went in. *)
Lemma push_stored rng b m d :
  0 < capacity m -> nonempty b -> memory (push rng b m d).1 <> [].
Proof.
  unfold push, nonempty. intros Hc Hb.
  destruct (examples_of b) as [|e es]; [done|]. simpl.
  apply push_examples_keeps, push_example_stored, Hc.
Qed.

Lemma push_capacity rng b m d : capacity (push rng b m d).1 = capacity m.
Proof. apply push_examples_capacity. Qed.

Lemma draw_length rng held : forall k d,
  held <> [] -> length (draw rng k held d) = k.
Proof.
  induction k as [|k IH]; intros d Hne; simpl; [reflexivity|].
  destruct (held !! (rng d mod length held)) eqn:E.
  - simpl. by rewrite IH.
  - apply lookup_ge_None in E.
    assert (length held <> 0) by (destruct held; simpl; [done|lia]).
    pose proof (Nat.mod_upper_bound (rng d) (length held)). lia.
Qed.

(** The sample size contract: a successful sample has exactly [k]
    examples. *)
Lemma sample_size rng k m d sampled d' :
  sample rng k m d = (Ok sampled, d') -> size0 sampled = k.
Proof.
  unfold sample. destruct (memory m) as [|e held] eqn:E; [discriminate|].
  intros [= <- _]. unfold size0, batch_of. simpl.
  rewrite length_map. by apply draw_length.
Qed.

End MemoryFacts.

(** C7 (capacity invariant).  Whatever the random source, the capacity
    and the sequence of batches pushed into a memory created empty, the
    memory never stores more examples than its capacity; and pushing 150
    distinct single-example batches into a memory of capacity 100 leaves
    exactly 100 stored examples. *)
Theorem memory_capacity_invariant :
  (forall (rng : nat -> nat) (C : nat) (batches : list Batch),
     length (ReplayMemory.memory
       (fold_left (fun md b => ReplayMemory.push rng b md.1 md.2) batches
                  (ReplayMemory.create C, 0)).1) <= C) /\
  (forall rng : nat -> nat,
     NoDup (Toy.singles 150) /\
     length (ReplayMemory.memory
       (fold_left (fun md b => ReplayMemory.push rng b md.1 md.2)
                  (Toy.singles 150) (ReplayMemory.create 100, 0)).1) = 100).
Proof.
  assert (Hinv : forall rng batches md,
    length (ReplayMemory.memory md.1) <= ReplayMemory.capacity md.1 ->
    let md' := fold_left (fun md b => ReplayMemory.push rng b md.1 md.2) batches md in
    ReplayMemory.capacity md'.1 = ReplayMemory.capacity md.1 /\
    length (ReplayMemory.memory md'.1) =
    Nat.min (ReplayMemory.capacity md.1)
      (length (ReplayMemory.memory md.1) + length (concat (map examples_of batches)))).
  { intros rng batches. induction batches as [|b bs IH]; intros md Hle; simpl.
    - split; [reflexivity|]. lia.
    - specialize (IH (ReplayMemory.push rng b md.1 md.2)).
      unfold ReplayMemory.push in *.
      rewrite push_examples_capacity, push_examples_length in IH by exact Hle.
      destruct IH as [IHc IHl]; [lia|]. split; [exact IHc|].
      rewrite IHl, length_app. lia. }
  split.
  - intros rng C batches.
    destruct (Hinv rng batches (ReplayMemory.create C, 0)) as [_ Hl]; [simpl; lia|].
    rewrite Hl. simpl. lia.
  - intros rng. split.
    + unfold Toy.singles. apply NoDup_fmap_2; [|apply NoDup_seq].
      intros i j [= Hij]. lia.
    + destruct (Hinv rng (Toy.singles 150) (ReplayMemory.create 100, 0)) as [_ Hl];
        [simpl; lia|].
      rewrite Hl. reflexivity.
Qed.

(** ** Accuracy *)

Section AccuracyFacts.

Local Open Scope Q_scope.

(** [argmax_from] keeps the first position of the maximum seen so far. *)
Lemma argmax_from_spec (row : list Q) : forall (pre : list Q) (best_i : nat) (best : Q),
  pre !! best_i = Some best ->
  (forall j y, pre !! j = Some y -> y <= best) ->
  (forall j y, (j < best_i)%nat -> pre !! j = Some y -> y < best) ->
  exists v,
    (pre ++ row) !! argmax_from best_i best (length pre) row = Some v /\
    (forall j y, (pre ++ row) !! j = Some y -> y <= v) /\
    (forall j y, (j < argmax_from best_i best (length pre) row)%nat ->
       (pre ++ row) !! j = Some y -> y < v).
Proof.
  induction row as [|x row IH]; intros pre best_i best Hbest Hmax Hfirst.
  - rewrite app_nil_r. cbn. eauto.
  - cbn [argmax_from]. replace (pre ++ x :: row) with ((pre ++ [x]) ++ row)
      by (by rewrite <- app_assoc).
    replace (S (length pre)) with (length (pre ++ [x]))
      by (rewrite length_app; cbn; lia).
    destruct (Qle_bool x best) eqn:E.
    + apply Qle_bool_iff in E. apply IH.
      * rewrite lookup_app_l; [exact Hbest|]. by eapply lookup_lt_Some.
      * intros j y Hj. apply lookup_app_Some in Hj as [Hj|[_ Hj]]; [eauto|].
        apply list_lookup_singleton_Some in Hj as [_ <-]. exact E.
      * intros j y Hlt Hj. apply lookup_app_Some in Hj as [Hj|[Hge _]]; [eauto|].
        apply lookup_lt_Some in Hbest. lia.
    + assert (Hlt : best < x).
      { apply Qnot_le_lt. intros Hle. apply Qle_bool_iff in Hle. congruence. }
      apply IH.
      * rewrite lookup_app_r by lia. by rewrite Nat.sub_diag.
      * intros j y Hj. apply lookup_app_Some in Hj as [Hj|[_ Hj]].
        -- apply Qle_trans with best; [eauto|]. by apply Qlt_le_weak.
        -- apply list_lookup_singleton_Some in Hj as [_ <-]. apply Qle_refl.
      * intros j y Hj Hy. apply lookup_app_Some in Hy as [Hy|[Hge _]]; [|lia].
        apply Qle_lt_trans with best; eauto.
Qed.

(** [np.argmax] of a row: the first position that holds the maximum. *)
Lemma argmax_first_max (row : list Q) :
  row <> [] ->
  argmax row = Ok (argmax_index row) /\
  exists v,
    row !! argmax_index row = Some v /\
    (forall j y, row !! j = Some y -> y <= v) /\
    (forall j y, (j < argmax_index row)%nat -> row !! j = Some y -> y < v).
Proof.
  destruct row as [|x row]; [done|]. intros _. split; [reflexivity|].
  cbn [argmax_index].
  apply (argmax_from_spec row [x] 0%nat x).
  - reflexivity.
  - intros j y Hj. apply list_lookup_singleton_Some in Hj as [_ <-]. apply Qle_refl.
  - intros j y Hj. lia.
Qed.

Lemma argmax_rows_ok (preds : list (list Q)) :
  Forall (fun row => row <> []) preds ->
  argmax_rows preds = Ok (map (fun row => Z.of_nat (argmax_index row)) preds).
Proof.
  induction 1 as [|row preds Hrow _ IH]; [reflexivity|].
  cbn [argmax_rows map]. destruct (argmax_first_max row Hrow) as [-> _].
  by rewrite IH.
Qed.

(** On arrays in shape [flat_accuracy] is the accuracy of the batch. *)
Lemma flat_accuracy_ok (preds : list (list Q)) (labels : list Z) :
  labels <> [] -> length preds = length labels ->
  Forall (fun row => row <> []) preds ->
  flat_accuracy preds labels = Ok (Fin (batch_accuracy preds labels)).
Proof.
  intros Hl Hlen Hrows. unfold flat_accuracy.
  rewrite (argmax_rows_ok _ Hrows), length_map, Hlen, Nat.eqb_refl.
  destruct labels; [done|]. reflexivity.
Qed.

End AccuracyFacts.

(** ** File names *)

Section FileNames.

Local Open Scope char_scope.

(** Two strings that are free of [c] and are each followed by [c] are
    equal when the whole strings are, and so are the rests. *)
Lemma split_at (c : ascii) : forall s1 s2 t1 t2 : string,
  free_of c s1 -> free_of c s2 ->
  s1 +:+ String c t1 = s2 +:+ String c t2 -> s1 = s2 /\ t1 = t2.
Proof.
  induction s1 as [|a s1 IH]; intros [|a' s2] t1 t2 H1 H2 Heq; cbn in *.
  - by injection Heq.
  - injection Heq as <- _. by destruct H2.
  - injection Heq as -> _. by destruct H1.
  - injection Heq as <- Heq. destruct H1 as [_ H1], H2 as [_ H2].
    destruct (IH s2 t1 t2 H1 H2 Heq) as [-> ->]. done.
Qed.

Lemma uint_free (c : ascii) (d : Decimal.uint) :
  c = "_" \/ c = "." -> free_of c (NilEmpty.string_of_uint d).
Proof.
  intros [-> | ->]; induction d; cbn; repeat split; (discriminate || assumption).
Qed.

(** [str] of an integer has digits and a sign only. *)
Lemma pystr_free (c : ascii) (n : Z) :
  c = "_" \/ c = "." -> free_of c (pystr n).
Proof.
  intros Hc. unfold pystr, NilZero.string_of_int, NilZero.string_of_uint.
  destruct (Z.to_int n) as [d|d].
  - destruct d; try (by apply uint_free).
    destruct Hc as [-> | ->]; cbn; repeat split; discriminate.
  - cbn. split; [destruct Hc as [-> | ->]; discriminate|].
    destruct d; try (by apply uint_free).
    destruct Hc as [-> | ->]; cbn; repeat split; discriminate.
Qed.

Lemma to_int_proper (n : Z) :
  Z.to_int n <> Decimal.Pos Decimal.Nil /\ Z.to_int n <> Decimal.Neg Decimal.Nil.
Proof.
  destruct n as [|p|p]; cbn; split; try discriminate; intros [= H];
    by apply (Unsigned.to_uint_nonnil p).
Qed.

(** [str] is injective on the integers. *)
Lemma pystr_inj (a b : Z) : pystr a = pystr b -> a = b.
Proof.
  unfold pystr. intros H. apply (f_equal NilZero.int_of_string) in H.
  destruct (to_int_proper a) as [Ha1 Ha2], (to_int_proper b) as [Hb1 Hb2].
  rewrite !NilZero.isi in H by assumption. injection H as H.
  apply (f_equal Z.of_int) in H. by rewrite !DecimalZ.of_to in H.
Qed.

Lemma model_path_eq (o e : Z) :
  model_path o e =
  "../model_checkpoints/REPLAY/classifier_order_"
    +:+ pystr o +:+ String "_" ("epoch_" +:+ pystr e +:+ String "." "pth").
Proof. reflexivity. Qed.

Lemma memory_path_eq (e : Z) :
  memory_path e =
  "../model_checkpoints/REPLAY/epoch_" +:+ pystr e +:+ String "." "npy".
Proof. reflexivity. Qed.

(** The name of a model checkpoint determines the pair
    [(order, epoch)]. *)
Lemma model_path_inj (o e o' e' : Z) :
  model_path o e = model_path o' e' -> o = o' /\ e = e'.
Proof.
  rewrite !model_path_eq. intros H. apply (inj _) in H.
  apply split_at in H as [Ho H]; [|by apply pystr_free; left..].
  apply (inj _) in H.
  apply split_at in H as [He _]; [|by apply pystr_free; right..].
  split; by apply pystr_inj.
Qed.

(** The name of a memory checkpoint determines the epoch. *)
Lemma memory_path_inj (e e' : Z) : memory_path e = memory_path e' -> e = e'.
Proof.
  rewrite !memory_path_eq. intros H. apply (inj _) in H.
  apply split_at in H as [He _]; [|by apply pystr_free; right..].
  by apply pystr_inj.
Qed.

(** Model and memory checkpoints never share a file. *)
Lemma model_path_memory_path (o e e' : Z) : model_path o e <> memory_path e'.
Proof.
  rewrite model_path_eq, memory_path_eq.
  change ("../model_checkpoints/REPLAY/classifier_order_" +:+ ?x)
    with ("../model_checkpoints/REPLAY/" +:+ String "c" ("lassifier_order_" +:+ x)).
  change ("../model_checkpoints/REPLAY/epoch_" +:+ ?x)
    with ("../model_checkpoints/REPLAY/" +:+ String "e" ("poch_" +:+ x)).
  intros H. apply (inj _) in H. discriminate H.
Qed.

End FileNames.

(** ** The training loop *)

Section ProgramFacts.

Context {Mdl Snapshot : Type} {cls : Classifier Mdl Snapshot}.
Variable rng : nat -> nat.

Implicit Types (w : @World Mdl Snapshot) (tv : Tracking) (b : Batch).

(** A step whose index is not a multiple of the replay period trains
    on the live batch. *)
Lemma train_step_live step b tv w :
  (step + 1) mod REPLAY_FREQ <> 0 ->
  exists w',
    train_step rng step b tv w =
      (EvPush b :: EvUnpack b :: update_calls b, w',
       Ok (mkTracking (tr_loss tv + classify (zero_grad (model w)) b)%Q
                      (nb_tr_examples tv + size0 b) (nb_tr_steps tv + 1))) /\
    memory w' = memory_after_push rng b w /\
    model w' = model_after_update b (model w) /\
    train_loss_set w' = train_loss_set w ++ [classify (zero_grad (model w)) b] /\
    files w' = files w /\ dirs w' = dirs w.
Proof.
  intros Hstep. apply Nat.eqb_neq in Hstep.
  unfold train_step, bind, memory_push, memory_after_push.
  destruct (ReplayMemory.push rng b (memory w) (draws w)) as [m' d'] eqn:Ep.
  rewrite Hstep. cbn. eexists. split; [reflexivity|]. cbn. auto.
Qed.

(** A step whose index is a multiple of the replay period samples the
    memory as the push left it and trains on the sample. *)
Lemma train_step_replay step b tv w :
  (step + 1) mod REPLAY_FREQ = 0 ->
  ReplayMemory.memory (memory_after_push rng b w) <> [] ->
  exists w' sampled,
    train_step rng step b tv w =
      (EvPush b
         :: EvSample (ReplayMemory.memory (memory_after_push rng b w)) 64
         :: update_calls sampled, w',
       Ok (mkTracking (tr_loss tv + classify (zero_grad (model w)) sampled)%Q
                      (nb_tr_examples tv + size0 sampled) (nb_tr_steps tv + 1))) /\
    size0 sampled = 64 /\
    memory w' = memory_after_push rng b w /\
    model w' = model_after_update sampled (model w) /\
    train_loss_set w' =
      train_loss_set w ++ [classify (zero_grad (model w)) sampled] /\
    files w' = files w /\ dirs w' = dirs w.
Proof.
  intros Hstep Hheld. apply Nat.eqb_eq in Hstep.
  unfold train_step, bind, memory_push, memory_sample, memory_after_push in *.
  destruct (ReplayMemory.push rng b (memory w) (draws w)) as [m' d'] eqn:Ep.
  rewrite Hstep. cbn in *.
  destruct (ReplayMemory.sample rng 64 m' d') as [[sampled|e] d''] eqn:Es.
  - cbn. exists (set_model (model_after_update sampled (model w))
                   (set_train_loss_set
                      (train_loss_set w ++ [classify (zero_grad (model w)) sampled])
                      (set_draws d'' (set_memory m' d' w)))), sampled.
    split; [reflexivity|]. split; [by eapply sample_size|]. cbn. auto.
  - unfold ReplayMemory.sample in Es.
    destruct (ReplayMemory.memory m'); [done|discriminate].
Qed.

(** With nothing stored the sample raises, after the push and before
    any call on the model. *)
Lemma train_step_empty step b tv w :
  (step + 1) mod REPLAY_FREQ = 0 ->
  ReplayMemory.memory (memory_after_push rng b w) = [] ->
  exists w',
    train_step rng step b tv w =
      ([EvPush b; EvSample [] 64], w', Raise EmptyMemoryError) /\
    memory w' = memory_after_push rng b w.
Proof.
  intros Hstep Hheld. apply Nat.eqb_eq in Hstep.
  unfold train_step, bind, memory_push, memory_sample, memory_after_push in *.
  destruct (ReplayMemory.push rng b (memory w) (draws w)) as [m' d'] eqn:Ep.
  rewrite Hstep. cbn in *. unfold ReplayMemory.sample. rewrite Hheld.
  eexists. split; reflexivity.
Qed.

(** One iteration, when the memory can store and the batch is not
    empty: the iteration completes and is described by a view. *)
Lemma train_step_ok step b tv w :
  can_store w -> nonempty b ->
  exists w' v,
    train_step rng step b tv w =
      (step_events v, w',
       Ok (mkTracking (tr_loss tv + classify (zero_grad (model w)) (sv_trained v))%Q
                      (nb_tr_examples tv + size0 (sv_trained v))
                      (nb_tr_steps tv + 1))) /\
    sv_index v = step + 1 /\ sv_live v = b /\
    sv_held v = ReplayMemory.memory (memory_after_push rng b w) /\
    sv_held v <> [] /\
    sv_source v = scheduled (sv_index v) /\
    (sv_source v = FromStream -> sv_trained v = b) /\
    (sv_source v = FromMemory -> size0 (sv_trained v) = 64) /\
    memory w' = memory_after_push rng b w /\
    model w' = model_after_update (sv_trained v) (model w) /\
    length (train_loss_set w') = S (length (train_loss_set w)) /\
    files w' = files w /\ dirs w' = dirs w.
Proof.
  intros Hc Hb.
  assert (Hheld : ReplayMemory.memory (memory_after_push rng b w) <> [])
    by (apply push_stored; assumption).
  destruct (Nat.eq_dec ((step + 1) mod REPLAY_FREQ) 0) as [Hs|Hs].
  - destruct (train_step_replay step b tv w Hs Hheld)
      as (w' & sampled & Hrun & Hsize & Hmem & Hmodel & Hloss & Hfiles & Hdirs).
    exists w', (mkView (step + 1) b
                  (ReplayMemory.memory (memory_after_push rng b w))
                  FromMemory sampled).
    unfold step_events, scheduled. cbn [sv_index sv_live sv_held
      sv_source sv_trained]. rewrite Hs.
    repeat split; try assumption; try reflexivity; try discriminate;
      try (intros _; assumption).
    rewrite Hloss, length_app. cbn. lia.
  - destruct (train_step_live step b tv w Hs)
      as (w' & Hrun & Hmem & Hmodel & Hloss & Hfiles & Hdirs).
    exists w', (mkView (step + 1) b
                  (ReplayMemory.memory (memory_after_push rng b w))
                  FromStream b).
    unfold step_events, scheduled. cbn [sv_index sv_live sv_held
      sv_source sv_trained].
    apply Nat.eqb_neq in Hs. rewrite Hs.
    repeat split; try assumption; try reflexivity; try discriminate;
      try (intros _; assumption).
    rewrite Hloss, length_app. cbn. lia.
Qed.

(** The loop over the data loader, when the memory can store and no
    batch is empty: it completes, and its trace is that of one view
    per batch. *)
Lemma epoch_loop_ok batches : forall step tv w,
  can_store w -> Forall nonempty batches ->
  exists w' tv' views,
    epoch_loop rng step batches tv w = (flat_map step_events views, w', Ok tv') /\
    map sv_live views = batches /\
    map sv_index views = seq (step + 1) (length batches) /\
    Forall view_ok views /\
    nb_tr_examples tv' =
      nb_tr_examples tv + sum_list (map (fun v => size0 (sv_trained v)) views) /\
    nb_tr_steps tv' = nb_tr_steps tv + length batches /\
    model w' =
      fold_left (fun m v => model_after_update (sv_trained v) m) views (model w) /\
    ReplayMemory.capacity (memory w') = ReplayMemory.capacity (memory w) /\
    length (train_loss_set w') = length (train_loss_set w) + length batches /\
    (batches <> [] ->
     ReplayMemory.memory (memory w') = from_option sv_held [] (last views)) /\
    (batches = [] -> w' = w) /\
    files w' = files w /\ dirs w' = dirs w.
Proof.
  induction batches as [|b bs IH]; intros step tv w Hc Hne.
  - exists w, tv, []. cbn. repeat split; try done; lia.
  - apply Forall_cons in Hne as [Hb Hbs].
    destruct (train_step_ok step b tv w Hc Hb)
      as (w1 & v & Hrun & Hidx & Hlive & Hheld & Hstored & Hsrc
          & Hstream & Hmemory & Hmem & Hmodel & Hloss & Hfiles & Hdirs).
    assert (Hcap : ReplayMemory.capacity (memory w1) = ReplayMemory.capacity (memory w))
      by (rewrite Hmem; apply push_capacity).
    assert (Hc1 : can_store w1) by (unfold can_store in *; lia).
    match type of Hrun with _ = (_, _, Ok ?t) => set (tv1 := t) in * end.
    destruct (IH (S step) tv1 w1 Hc1 Hbs)
      as (w' & tv' & views & IHrun & IHlive & IHidx & IHok & IHex & IHsteps
          & IHmodel & IHcap & IHloss & IHlast & IHnil & IHfiles & IHdirs).
    exists w', tv', (v :: views).
    split; [|repeat split].
    + cbn [epoch_loop]. unfold bind. rewrite Hrun, IHrun. reflexivity.
    + cbn. by rewrite Hlive, IHlive.
    + cbn [map length seq]. rewrite Hidx, IHidx.
      reflexivity.
    + constructor; [|exact IHok].
      repeat split; try assumption. by rewrite Hlive.
    + rewrite IHex. cbn. lia.
    + rewrite IHsteps. cbn. lia.
    + rewrite IHmodel. cbn. by rewrite Hmodel.
    + lia.
    + rewrite IHloss, Hloss. cbn. lia.
    + intros _. destruct bs as [|b' bs'].
      * rewrite (IHnil eq_refl). destruct views; [|discriminate].
        cbn. by rewrite Hheld, Hmem.
      * rewrite IHlast by discriminate.
        destruct views as [|v' views']; [discriminate|]. reflexivity.
    + discriminate.
    + by rewrite IHfiles.
    + by rewrite IHdirs.
Qed.

(** *** Reading the trace of a sequence of views *)

Lemma step_sources_views (views : list step_view) :
  step_sources (flat_map step_events views) = map sv_source views.
Proof.
  induction views as [|v views IH]; [reflexivity|].
  cbn [flat_map map]. unfold step_sources in *. rewrite omap_app, IH.
  unfold step_events. destruct (sv_source v); reflexivity.
Qed.

Lemma pushed_batches_views (views : list step_view) :
  pushed_batches (flat_map step_events views) = map sv_live views.
Proof.
  induction views as [|v views IH]; [reflexivity|].
  cbn [flat_map map]. unfold pushed_batches in *. rewrite omap_app, IH.
  unfold step_events. destruct (sv_source v); reflexivity.
Qed.

Lemma classified_batches_views (views : list step_view) :
  classified_batches (flat_map step_events views) = map sv_trained views.
Proof.
  induction views as [|v views IH]; [reflexivity|].
  cbn [flat_map map]. unfold classified_batches in *. rewrite omap_app, IH.
  unfold step_events. destruct (sv_source v); reflexivity.
Qed.

Lemma model_calls_views (views : list step_view) :
  model_calls (flat_map step_events views) =
  flat_map update_calls (map sv_trained views).
Proof.
  induction views as [|v views IH]; [reflexivity|].
  cbn [flat_map map]. unfold model_calls in *. rewrite List.filter_app, IH.
  unfold step_events. destruct (sv_source v); reflexivity.
Qed.

Lemma optimizer_updates_views (views : list step_view) :
  optimizer_updates (flat_map step_events views) = length views.
Proof.
  induction views as [|v views IH]; [reflexivity|].
  cbn [flat_map]. unfold optimizer_updates in *.
  rewrite List.filter_app, length_app, IH.
  unfold step_events. destruct (sv_source v); reflexivity.
Qed.

Lemma sampled_from_views (views : list step_view) :
  sampled_from (flat_map step_events views) =
  map sv_held (List.filter (fun v => bool_decide (sv_source v = FromMemory)) views).
Proof.
  induction views as [|v views IH]; [reflexivity|].
  cbn [flat_map List.filter]. unfold sampled_from in *. rewrite omap_app, IH.
  unfold step_events. destruct (sv_source v); reflexivity.
Qed.

(** *** Counting the multiples of the replay period *)

Lemma div_succ (p n : nat) :
  0 < p -> S n / p = n / p + (if S n mod p =? 0 then 1 else 0).
Proof.
  intros Hp.
  pose proof (Nat.div_mod_eq n p) as Hn.
  pose proof (Nat.div_mod_eq (S n) p) as Hs.
  pose proof (Nat.mod_upper_bound n p) as Hnb.
  pose proof (Nat.mod_upper_bound (S n) p) as Hsb.
  destruct (Nat.eqb_spec (S n mod p) 0) as [E|E]; nia.
Qed.

Lemma count_source_app (s : source) (l1 l2 : list source) :
  count_source s (l1 ++ l2) = count_source s l1 + count_source s l2.
Proof. unfold count_source. by rewrite filter_app, length_app. Qed.

Lemma count_scheduled (n : nat) :
  count_source FromMemory (map scheduled (seq 1 n)) = n / REPLAY_FREQ /\
  count_source FromStream (map scheduled (seq 1 n)) = n - n / REPLAY_FREQ.
Proof.
  induction n as [|n [IHm IHs]]; [split; reflexivity|].
  assert (Hle : n / REPLAY_FREQ <= n) by (apply Nat.Div0.div_le_upper_bound; unfold REPLAY_FREQ; lia).
  rewrite seq_S, map_app, !count_source_app, IHm, IHs.
  rewrite (div_succ REPLAY_FREQ n) by (unfold REPLAY_FREQ; lia).
  cbn [map]. replace (1 + n) with (S n) by lia. unfold scheduled.
  remember (n / REPLAY_FREQ) as q eqn:Eq. clear Eq.
  destruct (S n mod REPLAY_FREQ =? 0).
  - change (count_source FromMemory [FromMemory]) with 1.
    change (count_source FromStream [FromMemory]) with 0. lia.
  - change (count_source FromMemory [FromStream]) with 0.
    change (count_source FromStream [FromStream]) with 1. lia.
Qed.

Lemma sources_scheduled (views : list step_view) :
  Forall view_ok views ->
  map sv_source views = map scheduled (map sv_index views).
Proof.
  induction 1 as [|v views Hv _ IH]; [reflexivity|].
  cbn [map]. rewrite IH. by destruct Hv as (_ & -> & _).
Qed.

(** A replay step trains on the batch that [memory.sample] returns from
    the memory and the random position the push left. *)
Lemma train_step_sampled step b tv w sampled d'' :
  (step + 1) mod REPLAY_FREQ = 0 ->
  ReplayMemory.sample rng 64 (memory_after_push rng b w)
    (ReplayMemory.push rng b (memory w) (draws w)).2 = (Ok sampled, d'') ->
  exists w1,
    train_step rng step b tv w =
      (EvPush b
         :: EvSample (ReplayMemory.memory (memory_after_push rng b w)) 64
         :: update_calls sampled, w1,
       Ok (mkTracking (tr_loss tv + classify (zero_grad (model w)) sampled)%Q
                      (nb_tr_examples tv + size0 sampled) (nb_tr_steps tv + 1))) /\
    memory w1 = memory_after_push rng b w /\
    draws w1 = d'' /\
    model w1 = model_after_update sampled (model w) /\
    train_loss_set w1 = train_loss_set w ++ [classify (zero_grad (model w)) sampled].
Proof.
  intros Hstep Hsample. apply Nat.eqb_eq in Hstep.
  unfold train_step, bind, memory_push, memory_sample, memory_after_push in *.
  destruct (ReplayMemory.push rng b (memory w) (draws w)) as [m' d'] eqn:Ep.
  rewrite Hstep. cbn in *. rewrite Hsample. cbn.
  eexists. split; [reflexivity|]. cbn. auto.
Qed.

(** A live step leaves the random position where the push left it. *)
Lemma train_step_live_draws step b tv w :
  (step + 1) mod REPLAY_FREQ <> 0 ->
  draws (world_of (train_step rng step b tv w)) =
  (ReplayMemory.push rng b (memory w) (draws w)).2.
Proof.
  intros Hstep. apply Nat.eqb_neq in Hstep.
  unfold train_step, bind, memory_push.
  destruct (ReplayMemory.push rng b (memory w) (draws w)) as [m' d'] eqn:Ep.
  rewrite Hstep. reflexivity.
Qed.

Lemma classified_update_calls (tb : Batch) (t : list event) :
  classified_batches (update_calls tb ++ t) = tb :: classified_batches t.
Proof. reflexivity. Qed.

Lemma model_update_calls (tb : Batch) (t : list event) :
  model_calls (update_calls tb ++ t) = update_calls tb ++ model_calls t.
Proof. reflexivity. Qed.

(** The loop over the data loader, when the memory can store and no
    batch is empty: what the steps train on, the calls they make on
    model and optimizer, and the losses they compute. *)
Lemma epoch_loop_exact batches : forall step tv w,
  can_store w -> Forall nonempty batches ->
  exists t w' tv',
    epoch_loop rng step batches tv w = (t, w', Ok tv') /\
    classified_batches t =
      trained_batches rng step batches (memory w) (draws w) /\
    model_calls t = flat_map update_calls (classified_batches t) /\
    train_loss_set w' =
      train_loss_set w ++ losses_of (model w) (classified_batches t) /\
    (tr_loss tv' == tr_loss tv + Qsum (losses_of (model w) (classified_batches t)))%Q.
Proof.
  induction batches as [|b bs IH]; intros step tv w Hc Hne.
  - exists [], w, tv. cbn. rewrite app_nil_r. repeat split. unfold Qsum. cbn. ring.
  - apply Forall_cons in Hne as [Hb Hbs].
    assert (Hheld : ReplayMemory.memory (memory_after_push rng b w) <> [])
      by (apply push_stored; assumption).
    assert (Hstep : exists src trained w1,
      train_step rng step b tv w =
        (EvPush b :: src :: update_calls trained, w1,
         Ok (mkTracking (tr_loss tv + classify (zero_grad (model w)) trained)%Q
                        (nb_tr_examples tv + size0 trained) (nb_tr_steps tv + 1))) /\
      (src = EvUnpack b \/ exists held k, src = EvSample held k) /\
      trained_batches rng step (b :: bs) (memory w) (draws w) =
        trained :: trained_batches rng (S step) bs (memory w1) (draws w1) /\
      memory w1 = memory_after_push rng b w /\
      model w1 = model_after_update trained (model w) /\
      train_loss_set w1 =
        train_loss_set w ++ [classify (zero_grad (model w)) trained]).
    { destruct (Nat.eq_dec ((step + 1) mod REPLAY_FREQ) 0) as [Hs|Hs].
      - destruct (ReplayMemory.sample rng 64 (memory_after_push rng b w)
                    (ReplayMemory.push rng b (memory w) (draws w)).2)
          as [[sampled|e] d''] eqn:Es.
        + destruct (train_step_sampled step b tv w sampled d'' Hs Es)
            as (w1 & Hrun & Hmem & Hdraws & Hmodel & Hloss).
          exists (EvSample (ReplayMemory.memory (memory_after_push rng b w)) 64),
                 sampled, w1.
          split; [exact Hrun|]. split; [eauto|]. split; [|auto].
          cbn [trained_batches]. unfold memory_after_push in *.
          destruct (ReplayMemory.push rng b (memory w) (draws w)) as [m' d'].
          cbn [fst snd] in *. apply Nat.eqb_eq in Hs. rewrite Hs, Es, Hmem, Hdraws.
          reflexivity.
        + unfold ReplayMemory.sample in Es.
          destruct (ReplayMemory.memory (memory_after_push rng b w));
            [done|discriminate].
      - destruct (train_step_live step b tv w Hs)
          as (w1 & Hrun & Hmem & Hmodel & Hloss & _).
        pose proof (train_step_live_draws step b tv w Hs) as Hdraws.
        rewrite Hrun in Hdraws. cbn [world_of fst snd] in Hdraws.
        exists (EvUnpack b), b, w1.
        split; [exact Hrun|]. split; [auto|]. split; [|auto].
        cbn [trained_batches]. unfold memory_after_push in *.
        destruct (ReplayMemory.push rng b (memory w) (draws w)) as [m' d'].
        cbn [fst snd] in *. apply Nat.eqb_neq in Hs. rewrite Hs, Hmem, Hdraws.
        reflexivity. }
    destruct Hstep as (src & trained & w1 & Hrun & Hsrc & Htb & Hmem & Hmodel & Hloss).
    match type of Hrun with _ = (_, _, Ok ?x) => set (tv1 := x) in * end.
    assert (Hc1 : can_store w1).
    { unfold can_store in *. rewrite Hmem.
      unfold memory_after_push. rewrite push_capacity. exact Hc. }
    destruct (IH (S step) tv1 w1 Hc1 Hbs)
      as (t2 & w' & tv' & IHrun & IHcls & IHcalls & IHloss & IHsum).
    assert (Hcls : classified_batches ((EvPush b :: src :: update_calls trained) ++ t2)
                   = trained :: classified_batches t2).
    { destruct Hsrc as [->|(held & k & ->)]; reflexivity. }
    assert (Hcalls : model_calls ((EvPush b :: src :: update_calls trained) ++ t2)
                     = update_calls trained ++ model_calls t2).
    { destruct Hsrc as [->|(held & k & ->)]; reflexivity. }
    exists ((EvPush b :: src :: update_calls trained) ++ t2), w', tv'.
    split; [|split; [|split; [|split]]].
    + cbn [epoch_loop]. unfold bind. rewrite Hrun, IHrun. reflexivity.
    + rewrite Hcls, Htb, IHcls. reflexivity.
    + rewrite Hcls, Hcalls, IHcalls. reflexivity.
    + rewrite Hcls, IHloss, Hloss, Hmodel, <- app_assoc. reflexivity.
    + rewrite Hcls, IHsum, Hmodel. subst tv1. cbn [tr_loss losses_of].
      unfold Qsum, model_after_update. cbn [fold_right]. ring.
Qed.

(** What the views of the loop say about the batch of each step. *)
Lemma trained_by_index (views : list step_view) (batches : list Batch) :
  map sv_live views = batches ->
  map sv_index views = seq 1 (length batches) ->
  Forall view_ok views ->
  forall i b tb, batches !! i = Some b -> map sv_trained views !! i = Some tb ->
    if (i + 1) mod 180 =? 0 then size0 tb = 64 else tb = b.
Proof.
  intros Hlive Hidx Hok i b tb Hb Htb. rewrite list_lookup_fmap in Htb.
  destruct (views !! i) as [v|] eqn:Ev; [|discriminate]. injection Htb as <-.
  assert (Hvi : sv_index v = i + 1).
  { assert (H1 : map sv_index views !! i = Some (sv_index v))
      by (by rewrite list_lookup_fmap, Ev).
    rewrite Hidx in H1. apply lookup_seq in H1 as [-> _]. lia. }
  assert (Hvl : sv_live v = b).
  { assert (H1 : map sv_live views !! i = Some (sv_live v))
      by (by rewrite list_lookup_fmap, Ev).
    rewrite Hlive, Hb in H1. by injection H1. }
  rewrite Forall_forall in Hok.
  destruct (Hok v) as (_ & Hsrc & Hstream & Hmemory);
    [by eapply list_elem_of_lookup_2|].
  rewrite Hvi in Hsrc. unfold scheduled in Hsrc. change REPLAY_FREQ with 180 in Hsrc.
  destruct ((i + 1) mod 180 =? 0).
  - by apply Hmemory.
  - rewrite <- Hvl. by apply Hstream.
Qed.

(** C1 (periodicity).  In the loop over a stream of [M] non-empty
    batches, run with a memory that can store, every step completes and
    the step of 1-based index [i] takes its training batch from
    [memory.sample] exactly when [i mod 180 = 0], from the live stream
    otherwise; so [M / 180] steps are replay-trained and [M - M / 180]
    live-trained, and for [M = 360] the replay steps are the steps 180
    and 360.  The batch a step is trained on, the one handed to
    [classify] between [zero_grad] and [backward] and [step], is the
    live batch of the step when [i mod 180 <> 0] and, when
    [i mod 180 = 0], the batch of 64 examples that [memory.sample]
    returns from the memory and the random position the push of the
    step left; every step trains on one batch.  The same is stated for
    one step from any world. *)
Theorem replay_periodicity (batches : list Batch) tv w :
  can_store w -> Forall nonempty batches ->
  let run := epoch_loop rng 0 batches tv w in
  let sources := step_sources (trace_of run) in
  let trained := classified_batches (trace_of run) in
  let M := length batches in
  (exists tv', result_of run = Ok tv') /\
  length sources = M /\
  (forall i s, sources !! i = Some s ->
     (s = FromMemory <-> (i + 1) mod 180 = 0) /\
     (s = FromStream <-> (i + 1) mod 180 <> 0)) /\
  count_source FromMemory sources = M / 180 /\
  count_source FromStream sources = M - M / 180 /\
  (M = 360 -> replay_indices 1 sources = [180; 360]) /\
  length trained = M /\
  trained = trained_batches rng 0 batches (memory w) (draws w) /\
  (forall i b, batches !! i = Some b -> (i + 1) mod 180 <> 0 ->
     trained !! i = Some b) /\
  (forall i tb, trained !! i = Some tb -> (i + 1) mod 180 = 0 ->
     size0 tb = 64) /\
  model_calls (trace_of run) =
    flat_map (fun tb => [EvZeroGrad; EvClassify tb; EvBackward; EvOptStep])
             trained /\
  (forall step b tv0 w0 sampled d,
     (step + 1) mod 180 = 0 ->
     ReplayMemory.sample rng 64 (memory_after_push rng b w0)
       (ReplayMemory.push rng b (memory w0) (draws w0)).2 = (Ok sampled, d) ->
     trace_of (train_step rng step b tv0 w0) =
       [EvPush b;
        EvSample (ReplayMemory.memory (memory_after_push rng b w0)) 64;
        EvZeroGrad; EvClassify sampled; EvBackward; EvOptStep]) /\
  (forall step b tv0 w0,
     (step + 1) mod 180 <> 0 ->
     trace_of (train_step rng step b tv0 w0) =
       [EvPush b; EvUnpack b; EvZeroGrad; EvClassify b; EvBackward; EvOptStep]).
Proof.
  intros Hc Hne run sources trained M.
  destruct (epoch_loop_ok batches 0 tv w Hc Hne)
    as (w' & tv' & views & Hrun & Hlive & Hidx & Hok & _).
  destruct (epoch_loop_exact batches 0 tv w Hc Hne)
    as (t & w2 & tv2 & Hrun2 & Hcls & Hcalls & _).
  rewrite Hrun in Hrun2. injection Hrun2 as <- _ _.
  assert (Hsrc : sources = map scheduled (seq 1 M)).
  { subst sources run. rewrite Hrun. cbn [trace_of fst].
    rewrite step_sources_views, (sources_scheduled _ Hok), Hidx. reflexivity. }
  assert (Htr : trained = map sv_trained views).
  { subst trained run. rewrite Hrun. cbn [trace_of fst].
    apply classified_batches_views. }
  assert (Hlen : length trained = M).
  { rewrite Htr, length_map. subst M. by rewrite <- Hlive, length_map. }
  split; [exists tv'; subst run; by rewrite Hrun|].
  rewrite Hsrc. split; [by rewrite length_map, length_seq|].
  split; [|split; [apply count_scheduled|split; [apply count_scheduled|]]].
  - intros i s Hi. rewrite list_lookup_fmap in Hi.
    destruct (seq 1 M !! i) as [j|] eqn:Ej; [|discriminate].
    apply lookup_seq in Ej as [-> _]. injection Hi as <-.
    unfold scheduled. change REPLAY_FREQ with 180.
    replace (S i) with (i + 1) by lia.
    destruct (Nat.eqb_spec ((i + 1) mod 180) 0) as [E|E]; split; split;
      intros; congruence.
  - split; [intros ->; vm_compute; reflexivity|].
    split; [exact Hlen|]. split; [|split; [|split; [|split; [|split]]]].
    + rewrite Htr, <- classified_batches_views. exact Hcls.
    + intros i b Hb Hs.
      assert (Hi : i < length trained).
      { rewrite Hlen. by eapply lookup_lt_Some. }
      apply lookup_lt_is_Some in Hi as [tb Htb]. rewrite Htb. f_equal.
      rewrite Htr in Htb.
      pose proof (trained_by_index views batches Hlive Hidx Hok i b tb Hb Htb) as H.
      apply Nat.eqb_neq in Hs. by rewrite Hs in H.
    + intros i tb Htb Hs.
      assert (Hi : i < length batches).
      { fold M. rewrite <- Hlen. by eapply lookup_lt_Some. }
      apply lookup_lt_is_Some in Hi as [b Hb]. rewrite Htr in Htb.
      pose proof (trained_by_index views batches Hlive Hidx Hok i b tb Hb Htb) as H.
      apply Nat.eqb_eq in Hs. by rewrite Hs in H.
    + subst trained run. rewrite Hrun. cbn [trace_of fst]. exact Hcalls.
    + intros step b tv0 w0 sampled d Hs Hsample.
      destruct (train_step_sampled step b tv0 w0 sampled d Hs Hsample)
        as (w1 & Hstep & _).
      by rewrite Hstep.
    + intros step b tv0 w0 Hs.
      destruct (train_step_live step b tv0 w0 Hs) as (w1 & Hstep & _).
      by rewrite Hstep.
Qed.

(** C2 as amended (coverage before substitution).  Whatever the world,
    a training step first hands the batch it pulled to [memory.push];
    when replay triggers, its next call is [memory.sample], on the
    memory as that push left it, and otherwise it unpacks the live
    batch; the memory after the push stores the whole live batch
    whenever it had room for it before the push.  And in the loop over a
    stream of non-empty batches, run with a memory that can store, every
    step is such a push followed by the sample or the unpacking and then
    the update, and the batches pushed are the batches of the stream,
    all of them and in order. *)
Theorem coverage_before_substitution (batches : list Batch) (step : nat) b tv w :
  can_store w -> Forall nonempty batches ->
  (let run := train_step rng step b tv w in
   let pushed := memory_after_push rng b w in
   (exists rest, trace_of run = EvPush b :: rest) /\
   ((step + 1) mod 180 = 0 ->
    exists rest,
      trace_of run = EvPush b :: EvSample (ReplayMemory.memory pushed) 64 :: rest) /\
   ((step + 1) mod 180 <> 0 ->
    trace_of run = EvPush b :: EvUnpack b :: update_calls b) /\
   memory (world_of run) = pushed /\
   (length (ReplayMemory.memory (memory w)) + length (examples_of b)
      <= ReplayMemory.capacity (memory w) ->
    forall e, e ∈ examples_of b -> e ∈ ReplayMemory.memory pushed)) /\
  (let run := epoch_loop rng 0 batches tv w in
   pushed_batches (trace_of run) = batches /\
   exists views,
     trace_of run = flat_map step_events views /\ map sv_live views = batches).
Proof.
  intros Hc Hne. split.
  - cbn zeta.
    assert (Hroom :
      length (ReplayMemory.memory (memory w)) + length (examples_of b)
        <= ReplayMemory.capacity (memory w) ->
      forall e, e ∈ examples_of b ->
                e ∈ ReplayMemory.memory (memory_after_push rng b w)).
    { intros Hfit e He. unfold memory_after_push, ReplayMemory.push.
      rewrite push_examples_room by exact Hfit. apply elem_of_app. by right. }
    destruct (Nat.eq_dec ((step + 1) mod REPLAY_FREQ) 0) as [Hs|Hs].
    + destruct (ReplayMemory.memory (memory_after_push rng b w)) as [|e0 held] eqn:Eh.
      * destruct (train_step_empty step b tv w Hs Eh) as (w' & Hrun & Hmem).
        rewrite Hrun. cbn [trace_of world_of fst snd].
        split; [eauto|]. split; [eauto|]. split; [done|]. split; [exact Hmem|].
        exact Hroom.
      * assert (Hheld : ReplayMemory.memory (memory_after_push rng b w) <> [])
          by (by rewrite Eh).
        destruct (train_step_replay step b tv w Hs Hheld)
          as (w' & sampled & Hrun & _ & Hmem & _).
        rewrite Hrun, Eh. cbn [trace_of world_of fst snd].
        split; [eauto|]. split; [eauto|]. split; [done|]. split; [exact Hmem|].
        exact Hroom.
    + destruct (train_step_live step b tv w Hs) as (w' & Hrun & Hmem & _).
      rewrite Hrun. cbn [trace_of world_of fst snd].
      split; [eauto|]. split; [done|]. split; [done|]. split; [exact Hmem|].
      exact Hroom.
  - destruct (epoch_loop_ok batches 0 tv w Hc Hne)
      as (w' & tv' & views & Hrun & Hlive & _).
    cbn zeta. rewrite Hrun. cbn [trace_of fst].
    split; [by rewrite pushed_batches_views|]. by exists views.
Qed.

(** C4 as amended (no sample of an empty memory).  The replay period is
    positive, and in the loop over a stream of non-empty batches, run
    with a memory that can store, every step completes: at each call of
    [memory.sample] the memory stores at least one example and the
    empty-memory error is not raised. *)
Theorem sample_never_empty (batches : list Batch) tv w :
  can_store w -> Forall nonempty batches ->
  let run := epoch_loop rng 0 batches tv w in
  0 < REPLAY_FREQ /\
  (exists tv', result_of run = Ok tv') /\
  result_of run <> Raise EmptyMemoryError /\
  Forall (fun held => held <> []) (sampled_from (trace_of run)).
Proof.
  intros Hc Hne run.
  destruct (epoch_loop_ok batches 0 tv w Hc Hne)
    as (w' & tv' & views & Hrun & _ & _ & Hok & _).
  subst run. rewrite Hrun. cbn [trace_of result_of fst snd].
  split; [unfold REPLAY_FREQ; lia|]. split; [by exists tv'|]. split; [done|].
  rewrite sampled_from_views. apply Forall_fmap.
  apply Forall_forall. intros v Hv.
  apply list_elem_of_In, List.filter_In in Hv as [Hv _].
  apply list_elem_of_In in Hv.
  rewrite Forall_forall in Hok. by destruct (Hok v Hv) as (Hheld & _).
Qed.

(** C6 (one update per batch).  In the loop over a stream of non-empty
    batches, run with a memory that can store, there is one training
    batch per stream batch: the live batch on a live step and, on a
    replay step, the 64 examples [memory.sample] returns from the memory
    and the random position the push of the step left.  The calls on
    model and optimizer are, for each training batch in turn,
    [zero_grad], [classify] on that batch, [backward], [step], and
    nothing else; so the optimizer is stepped once per stream batch, and
    the model the loop leaves is the one these calls produce.  The loss
    of each step is what [classify] computes on the model as
    [zero_grad] left it, for the training batch of the step: these
    losses are what the loop appends to [train_loss_set], and their sum
    is what it adds to the running loss. *)
Theorem one_update_per_batch (batches : list Batch) tv w :
  can_store w -> Forall nonempty batches ->
  let run := epoch_loop rng 0 batches tv w in
  exists trained tv',
    result_of run = Ok tv' /\
    length trained = length batches /\
    (forall i b tb, batches !! i = Some b -> trained !! i = Some tb ->
       if (i + 1) mod 180 =? 0 then size0 tb = 64 else tb = b) /\
    classified_batches (trace_of run) = trained /\
    model_calls (trace_of run) =
      flat_map (fun tb => [EvZeroGrad; EvClassify tb; EvBackward; EvOptStep])
               trained /\
    optimizer_updates (trace_of run) = length batches /\
    nb_tr_steps tv' = nb_tr_steps tv + length batches /\
    model (world_of run) =
      fold_left (fun m tb => opt_step (backward (zero_grad m) tb)) trained (model w) /\
    trained = trained_batches rng 0 batches (memory w) (draws w) /\
    train_loss_set (world_of run) =
      train_loss_set w ++ losses_of (model w) trained /\
    (tr_loss tv' == tr_loss tv + Qsum (losses_of (model w) trained))%Q.
Proof.
  intros Hc Hne run.
  destruct (epoch_loop_ok batches 0 tv w Hc Hne)
    as (w' & tv' & views & Hrun & Hlive & Hidx & Hok & _ & Hsteps & Hmodel & _).
  destruct (epoch_loop_exact batches 0 tv w Hc Hne)
    as (t & w2 & tv2 & Hrun2 & Hcls & _ & Hloss & Hsum).
  rewrite Hrun in Hrun2. injection Hrun2 as <- <- <-.
  rewrite classified_batches_views in Hcls, Hloss, Hsum.
  exists (map sv_trained views), tv'. subst run. rewrite Hrun.
  cbn [trace_of result_of world_of fst snd].
  assert (Hlen : length views = length batches)
    by (rewrite <- Hlive; by rewrite length_map).
  split; [reflexivity|]. split; [by rewrite length_map|].
  split; [|split; [apply classified_batches_views|
           split; [apply model_calls_views|
           split; [by rewrite optimizer_updates_views|
           split; [exact Hsteps|
           split; [|split; [exact Hcls|split; [exact Hloss|exact Hsum]]]]]]]].
  - apply (trained_by_index views batches Hlive Hidx Hok).
  - rewrite Hmodel. clear. generalize (model w).
    induction views as [|v views IH]; intros m; [reflexivity|].
    cbn [map fold_left]. apply IH.
Qed.

(** *** Epochs and checkpoints *)

Lemma save_checkpoint_run model_dict order epoch mem w :
  exists w',
    save_checkpoint model_dict order epoch (Some mem) None w =
      ([EvSaveCheckpoint order epoch true], w', Ok tt) /\
    files w' =
      <[memory_path epoch := MemoryBlob mem]>
        (<[model_path order epoch := ModelBlob model_dict]> (files w)) /\
    model w' = model w /\ memory w' = memory w /\
    train_loss_set w' = train_loss_set w.
Proof.
  unfold save_checkpoint, bind, emit, ensure_dir, write_file, modify.
  cbn [default]. fold checkpoints_root.
  destruct (bool_decide (checkpoints_root ∈ dirs w)); cbn;
    eexists; (split; [reflexivity|]); cbn; auto.
Qed.

(** An epoch over a non-empty stream of non-empty batches, with a memory
    that can store: the loop, then the snapshot of the model and the
    checkpoint of model and memory as the loop left them. *)
Lemma train_epoch_ok order batches epoch w :
  can_store w -> Forall nonempty batches -> batches <> [] ->
  exists w1 w' tv views,
    epoch_loop rng 0 batches (mkTracking 0 0 0)
               (set_model (train_mode (model w)) w) =
      (flat_map step_events views, w1, Ok tv) /\
    train_epoch rng order batches epoch w =
      (flat_map step_events views
         ++ [EvSaveState; EvSaveCheckpoint order (Z.of_nat epoch + 1) true],
       w', Ok tv) /\
    files w' =
      <[memory_path (Z.of_nat epoch + 1) :=
          MemoryBlob (ReplayMemory.memory (memory w1))]>
        (<[model_path order (Z.of_nat epoch + 1) :=
             ModelBlob (save_state (model w1))]> (files w)) /\
    model w' = model w1 /\ memory w' = memory w1 /\
    ReplayMemory.capacity (memory w') = ReplayMemory.capacity (memory w) /\
    length (train_loss_set w') = length (train_loss_set w) + length batches /\
    length views = length batches.
Proof.
  intros Hc Hne Hnil.
  set (w0 := set_model (train_mode (model w)) w).
  destruct (epoch_loop_ok batches 0 (mkTracking 0 0 0) w0 Hc Hne)
    as (w1 & tv & views & Hrun & Hlive & _ & _ & _ & Hsteps & _ & Hcap & Hloss
        & _ & _ & Hfiles & _).
  destruct (save_checkpoint_run (save_state (model w1)) order
              (Z.of_nat epoch + 1) (ReplayMemory.memory (memory w1)) w1)
    as (w' & Hsave & Hfiles' & Hmodel' & Hmem' & Hloss').
  exists w1, w', tv, views. split; [exact Hrun|].
  assert (Hsteps0 : (nb_tr_steps tv =? 0) = false).
  { apply Nat.eqb_neq. rewrite Hsteps. destruct batches; [done|]. cbn. lia. }
  split; [|split; [by rewrite Hfiles', Hfiles|
           split; [exact Hmodel'|split; [exact Hmem'|split; [|split]]]]].
  - unfold train_epoch, bind, modify, model_save_state, get. fold w0.
    rewrite Hrun, Hsteps0. unfold ret, raise. rewrite Hsave.
    cbn. reflexivity.
  - by rewrite Hmem', Hcap.
  - by rewrite Hloss', Hloss.
  - by rewrite <- Hlive, length_map.
Qed.

Lemma sum_trained_sizes (views : list step_view) :
  Forall view_ok views ->
  map (fun v => size0 (sv_trained v)) views =
  zip_with (fun i b => if i mod 180 =? 0 then 64 else size0 b)
           (map sv_index views) (map sv_live views).
Proof.
  induction 1 as [|v views Hv _ IH]; [reflexivity|].
  cbn [map zip_with]. rewrite IH. f_equal.
  destruct Hv as (_ & Hsrc & Hstream & Hmemory).
  unfold scheduled in Hsrc. change REPLAY_FREQ with 180 in Hsrc.
  destruct (sv_index v mod 180 =? 0).
  - by apply Hmemory.
  - by rewrite (Hstream Hsrc).
Qed.

Lemma sum_by_source (B : nat) (l : list nat) :
  sum_list (map (fun i => if i mod 180 =? 0 then 64 else B) l) =
  count_source FromMemory (map scheduled l) * 64
  + count_source FromStream (map scheduled l) * B.
Proof.
  induction l as [|i l IH]; [reflexivity|].
  cbn [map sum_list].
  change (scheduled i :: map scheduled l) with ([scheduled i] ++ map scheduled l).
  rewrite !count_source_app, IH.
  assert (Hs : scheduled i = if i mod 180 =? 0 then FromMemory else FromStream)
    by reflexivity.
  rewrite Hs. unfold id. clear Hs.
  destruct (i mod 180 =? 0).
  - change (count_source FromMemory [FromMemory]) with 1.
    change (count_source FromStream [FromMemory]) with 0. lia.
  - change (count_source FromMemory [FromStream]) with 0.
    change (count_source FromStream [FromStream]) with 1. lia.
Qed.

Lemma zip_uniform_sizes (B : nat) (batches : list Batch) : forall k,
  Forall (fun b => size0 b = B) batches ->
  zip_with (fun i b => if i mod 180 =? 0 then 64 else size0 b)
           (seq k (length batches)) batches =
  map (fun i => if i mod 180 =? 0 then 64 else B) (seq k (length batches)).
Proof.
  intros k HB. revert k.
  induction HB as [|b bs Hb _ IH]; intros k; [reflexivity|].
  cbn [length seq zip_with map]. by rewrite Hb, IH.
Qed.

(** C3 as amended (example count).  After an epoch over a non-empty
    stream of [M] non-empty batches, run with a memory that can store,
    the cumulative example count is the total size of the batches the
    steps trained on: the size of the live batch for a live-trained step
    and the 64 sampled examples for a replay-trained step.  With live
    batches all of size [B] it is [(M - M / 180) * B + (M / 180) * 64]. *)
Theorem example_count (order : Z) (batches : list Batch) (epoch : nat) w :
  can_store w -> Forall nonempty batches -> batches <> [] ->
  let run := train_epoch rng order batches epoch w in
  let M := length batches in
  exists tv,
    result_of run = Ok tv /\
    nb_tr_examples tv = sum_list (map size0 (classified_batches (trace_of run))) /\
    nb_tr_examples tv =
      sum_list (zip_with (fun i b => if i mod 180 =? 0 then 64 else size0 b)
                         (seq 1 M) batches) /\
    (forall B, Forall (fun b => size0 b = B) batches ->
       nb_tr_examples tv = (M - M / 180) * B + (M / 180) * 64).
Proof.
  intros Hc Hne Hnil run M.
  destruct (train_epoch_ok order batches epoch w Hc Hne Hnil)
    as (w1 & w' & tv & views & Hloop & Hrun & _).
  destruct (epoch_loop_ok batches 0 (mkTracking 0 0 0)
              (set_model (train_mode (model w)) w) Hc Hne)
    as (w1' & tv1 & views' & Hloop' & Hlive & Hidx & Hok & Hex & _).
  rewrite Hloop in Hloop'. injection Hloop' as Hviews <- <-.
  assert (Hsize : nb_tr_examples tv =
            sum_list (map (fun v => size0 (sv_trained v)) views')) by exact Hex.
  clear Hex. exists tv. subst run. rewrite Hrun. cbn [trace_of result_of fst snd].
  assert (Hzip : nb_tr_examples tv =
            sum_list (zip_with (fun i b => if i mod 180 =? 0 then 64 else size0 b)
                               (seq 1 M) batches)).
  { rewrite Hsize, (sum_trained_sizes _ Hok), Hidx, Hlive. reflexivity. }
  split; [reflexivity|]. split; [|split; [exact Hzip|]].
  - unfold classified_batches. rewrite omap_app. cbn [omap]. rewrite app_nil_r.
    fold (classified_batches (flat_map step_events views)).
    rewrite Hviews, classified_batches_views, Hsize, map_map. reflexivity.
  - intros B HB. rewrite Hzip.
    assert (Hconst : zip_with (fun i b => if i mod 180 =? 0 then 64 else size0 b)
                       (seq 1 M) batches =
                     map (fun i => if i mod 180 =? 0 then 64 else B) (seq 1 M)).
    { subst M. apply zip_uniform_sizes, HB. }
    rewrite Hconst, sum_by_source.
    destruct (count_scheduled M) as [-> ->]. change REPLAY_FREQ with 180. lia.
Qed.

Lemma checkpoints_views (views : list step_view) :
  checkpoints (flat_map step_events views) = [].
Proof.
  induction views as [|v views IH]; [reflexivity|].
  cbn [flat_map]. unfold checkpoints in *. rewrite omap_app, IH.
  unfold step_events. destruct (sv_source v); reflexivity.
Qed.

Lemma plots_views (views : list step_view) :
  plots (flat_map step_events views) = 0.
Proof.
  induction views as [|v views IH]; [reflexivity|].
  cbn [flat_map]. unfold plots in *. rewrite List.filter_app, length_app, IH.
  unfold step_events. destruct (sv_source v); reflexivity.
Qed.

Lemma last_views (views : list step_view) :
  views <> [] -> last (flat_map step_events views) = Some EvOptStep.
Proof.
  induction views as [|v views IH]; [done|]. intros _.
  cbn [flat_map]. destruct views as [|v' views'].
  - cbn [flat_map]. rewrite app_nil_r. unfold step_events.
    destruct (sv_source v); reflexivity.
  - rewrite last_app, IH by done. reflexivity.
Qed.

(** The world a computation followed by a pure step leaves. *)
Lemma world_of_bind_ret {A B : Type} (m : M (@World Mdl Snapshot) A) (f : A -> B) w :
  world_of (bind m (fun x => ret (f x)) w) = world_of (m w).
Proof.
  unfold bind, ret, world_of.
  destruct (m w) as [[t1 w1] [a|e]]; reflexivity.
Qed.

(** The loop over the epochs, over a non-empty stream of non-empty
    batches and with a memory that can store: every epoch completes and
    checkpoints once; the files of the checkpoints hold the model and
    the memory as they were when the epoch ended; no other file
    changes. *)
Lemma epochs_loop_ok order batches : forall n epoch w,
  can_store w -> Forall nonempty batches -> batches <> [] ->
  exists t w' tvs,
    epochs_loop rng order batches epoch n w = (t, w', Ok tvs) /\
    checkpoints t = map (fun e => (order, Z.of_nat e + 1, true)%Z) (seq epoch n) /\
    plots t = 0 /\
    optimizer_updates t = n * length batches /\
    (n <> 0 ->
     last t = Some (EvSaveCheckpoint order (Z.of_nat (epoch + n)) true)) /\
    (forall p,
       (forall e, epoch <= e < epoch + n ->
          p <> model_path order (Z.of_nat e + 1) /\
          p <> memory_path (Z.of_nat e + 1)) ->
       files w' !! p = files w !! p) /\
    (forall i, i < n ->
       let wi := world_of (epochs_loop rng order batches epoch (S i) w) in
       files w' !! model_path order (Z.of_nat (epoch + i) + 1) =
         Some (ModelBlob (save_state (model wi))) /\
       files w' !! memory_path (Z.of_nat (epoch + i) + 1) =
         Some (MemoryBlob (ReplayMemory.memory (memory wi)))).
Proof.
  induction n as [|n IH]; intros epoch w Hc Hne Hnil.
  - exists [], w, []. cbn. repeat split; try done; intros; lia.
  - destruct (train_epoch_ok order batches epoch w Hc Hne Hnil)
      as (w1 & w2 & tv & views & Hloop & Hrun & Hfiles & Hmodel & Hmem & Hcap
          & _ & Hlen).
    assert (Hc2 : can_store w2) by (unfold can_store in *; lia).
    destruct (IH (S epoch) w2 Hc2 Hne Hnil)
      as (t & w' & tvs & IHrun & IHcp & IHplots & IHupd & IHlast & IHkeep & IHfiles).
    set (t1 := flat_map step_events views
                 ++ [EvSaveState; EvSaveCheckpoint order (Z.of_nat epoch + 1) true])
      in *.
    assert (Hunfold : forall m,
      epochs_loop rng order batches epoch (S m) w =
      match bind (epochs_loop rng order batches (S epoch) m)
                 (fun tvs => ret (tv :: tvs)) w2 with
      | (t2, s2, r) => (t1 ++ t2, s2, r)
      end).
    { intros m. cbn [epochs_loop]. unfold bind at 1. rewrite Hrun. reflexivity. }
    assert (Hcp1 : checkpoints t1 = [(order, Z.of_nat epoch + 1, true)%Z]).
    { subst t1. unfold checkpoints. rewrite omap_app.
      fold (checkpoints (flat_map step_events views)).
      by rewrite checkpoints_views. }
    assert (Hpl1 : plots t1 = 0).
    { subst t1. unfold plots. rewrite List.filter_app, length_app.
      fold (plots (flat_map step_events views)). by rewrite plots_views. }
    assert (Hup1 : optimizer_updates t1 = length batches).
    { subst t1. unfold optimizer_updates. rewrite List.filter_app, length_app.
      fold (optimizer_updates (flat_map step_events views)).
      rewrite optimizer_updates_views, Hlen. cbn. lia. }
    assert (Hkeep1 : forall p,
      p <> model_path order (Z.of_nat epoch + 1) ->
      p <> memory_path (Z.of_nat epoch + 1) ->
      files w2 !! p = files w !! p).
    { intros p Hp1 Hp2. rewrite Hfiles. by rewrite !lookup_insert_ne. }
    exists (t1 ++ t), w', (tv :: tvs). split; [|repeat split].
    + rewrite Hunfold. unfold bind. rewrite IHrun. cbn. by rewrite app_nil_r.
    + unfold checkpoints in *. by rewrite omap_app, IHcp, Hcp1.
    + unfold plots in *. rewrite List.filter_app, length_app. lia.
    + unfold optimizer_updates in *. rewrite List.filter_app, length_app. lia.
    + intros _. destruct n as [|n'].
      * cbn in IHrun. injection IHrun as <- _ _. rewrite app_nil_r.
        subst t1. rewrite last_app. cbn. do 3 f_equal. lia.
      * rewrite last_app, IHlast by done. cbn. do 3 f_equal. lia.
    + intros p Hp. rewrite IHkeep by (intros e He; apply Hp; lia).
      destruct (Hp epoch) as [Hp1 Hp2]; [lia|]. by apply Hkeep1.
    + destruct i as [|j].
      * rewrite Hunfold. cbn [epochs_loop]. unfold bind, ret, world_of. cbn.
        rewrite IHkeep, Hfiles.
        -- rewrite lookup_insert_ne by (apply not_eq_sym, model_path_memory_path).
           rewrite Nat.add_0_r, lookup_insert_eq. by rewrite Hmodel.
        -- intros e He. split.
           ++ intros Heq. apply model_path_inj in Heq as [_ Heq]. lia.
           ++ apply model_path_memory_path.
      * destruct (IHfiles j) as [IHa _]; [lia|]. cbn zeta in IHa.
        rewrite Hunfold.
        replace (world_of
                   (let '(t2, s2, r) :=
                      bind (epochs_loop rng order batches (S epoch) (S j))
                           (fun tvs0 => ret (tv :: tvs0)) w2 in
                    (t1 ++ t2, s2, r)))
          with (world_of (epochs_loop rng order batches (S epoch) (S j) w2)).
        -- rewrite <- IHa. do 3 f_equal. lia.
        -- rewrite <- (world_of_bind_ret _ (fun tvs0 => tv :: tvs0)).
           destruct (bind _ _ w2) as [[? ?] ?]. reflexivity.
    + destruct i as [|j].
      * rewrite Hunfold. cbn [epochs_loop]. unfold bind, ret, world_of. cbn.
        rewrite IHkeep, Hfiles.
        -- rewrite Nat.add_0_r, lookup_insert_eq. by rewrite Hmem.
        -- intros e He. split.
           ++ apply not_eq_sym, model_path_memory_path.
           ++ intros Heq. apply memory_path_inj in Heq. lia.
      * destruct (IHfiles j) as [_ IHb]; [lia|]. cbn zeta in IHb.
        rewrite Hunfold.
        replace (world_of
                   (let '(t2, s2, r) :=
                      bind (epochs_loop rng order batches (S epoch) (S j))
                           (fun tvs0 => ret (tv :: tvs0)) w2 in
                    (t1 ++ t2, s2, r)))
          with (world_of (epochs_loop rng order batches (S epoch) (S j) w2)).
        -- rewrite <- IHb. do 3 f_equal. lia.
        -- rewrite <- (world_of_bind_ret _ (fun tvs0 => tv :: tvs0)).
           destruct (bind _ _ w2) as [[? ?] ?]. reflexivity.
Qed.

(** *** [train] and [__main__] *)

Variable DataLoader : Z -> string -> Z -> list Batch.
Variable ReplayModel : option (Blob Snapshot) -> Mdl.
Variable default_capacity : nat.

Lemma globals_ReplayModel :
  module_globals ReplayModel !! "ReplayModel" = Some (PyModelClass ReplayModel).
Proof. vm_compute. reflexivity. Qed.

Lemma globals_EncDec : module_globals ReplayModel !! "EncDec" = None.
Proof. vm_compute. reflexivity. Qed.

(** [save_trainloss] called without [order] raises before it does
    anything. *)
Lemma save_trainloss_missing_order (l : list Q) (base_loc : option string) w :
  save_trainloss l None base_loc w = ([], w, Raise TypeError).
Proof. reflexivity. Qed.

(** [train] runs its epochs and then fails in its last statement. *)
Lemma train_ok (args : Args) (order : Z) w :
  let batches := DataLoader order "train" (batch_size args) in
  can_store w -> Forall nonempty batches -> batches <> [] ->
  exists t w' tvs,
    epochs_loop rng order batches 0 (Z.to_nat (epochs args))
                (set_train_loss_set [] w) = (t, w', Ok tvs) /\
    train rng DataLoader args order w = (t, w', Raise TypeError).
Proof.
  intros batches Hc Hne Hnil.
  destruct (epochs_loop_ok order batches (Z.to_nat (epochs args)) 0
              (set_train_loss_set [] w) Hc Hne Hnil)
    as (t & w' & tvs & Hrun & _).
  exists t, w', tvs. split; [exact Hrun|].
  unfold train, bind, modify, get. fold batches. rewrite Hrun.
  unfold save_trainloss, raise. cbn. by rewrite app_nil_r.
Qed.

Lemma seq_from_one {A : Type} (f g : nat -> A) (n : nat) :
  (forall e, f e = g (S e)) -> map f (seq 0 n) = map g (seq 1 n).
Proof.
  intros Hfg. rewrite <- fmap_S_seq. rewrite <- list_fmap_compose.
  apply list_fmap_ext. intros _ e _. apply Hfg.
Qed.

(** C8 (checkpoint at the end of every epoch).  For a non-empty stream
    of non-empty batches and a memory that can store: an epoch runs its
    loop, whose last call is an optimizer step and which saves nothing,
    then takes the snapshot of the model and saves it once, under the
    file of [(order, epoch)], with the contents of the memory under the
    file of [epoch], model and memory being those the loop left.  Over a
    whole run there is one such save per epoch, in epoch order, and at
    the end the files of epoch [e] hold the model and the memory as they
    were after [e] epochs.  Without a memory [save_checkpoint] writes the
    model file only.  The file of a model checkpoint determines
    [(order, epoch)], that of a memory checkpoint determines the epoch,
    and the two kinds never share a file. *)
Theorem checkpoint_per_epoch (args : Args) (order : Z) (epoch : nat) w :
  let batches := DataLoader order "train" (batch_size args) in
  let E := Z.to_nat (epochs args) in
  can_store w -> Forall nonempty batches -> batches <> [] ->
  (let loop := epoch_loop rng 0 batches (mkTracking 0 0 0)
                          (set_model (train_mode (model w)) w) in
   let run := train_epoch rng order batches epoch w in
   trace_of run =
     trace_of loop
       ++ [EvSaveState; EvSaveCheckpoint order (Z.of_nat epoch + 1) true] /\
   last (trace_of loop) = Some EvOptStep /\
   checkpoints (trace_of loop) = [] /\
   files (world_of run) =
     <[memory_path (Z.of_nat epoch + 1) :=
         MemoryBlob (ReplayMemory.memory (memory (world_of loop)))]>
       (<[model_path order (Z.of_nat epoch + 1) :=
            ModelBlob (save_state (model (world_of loop)))]> (files w))) /\
  (let run := train rng DataLoader args order w in
   checkpoints (trace_of run) =
     map (fun e => (order, Z.of_nat e, true)) (seq 1 E) /\
   forall e, 1 <= e <= E ->
     let we := world_of (epochs_loop rng order batches 0 e
                                     (set_train_loss_set [] w)) in
     files (world_of run) !! model_path order (Z.of_nat e) =
       Some (ModelBlob (save_state (model we))) /\
     files (world_of run) !! memory_path (Z.of_nat e) =
       Some (MemoryBlob (ReplayMemory.memory (memory we)))) /\
  (forall model_dict o e w0,
     files (world_of (save_checkpoint model_dict o e None None w0)) =
     <[model_path o e := ModelBlob model_dict]> (files w0)) /\
  (forall o e o' e', model_path o e = model_path o' e' -> o = o' /\ e = e') /\
  (forall e e', memory_path e = memory_path e' -> e = e') /\
  (forall o e e', model_path o e <> memory_path e').
Proof.
  intros batches E Hc Hne Hnil.
  split; [|split; [|split; [|split; [apply model_path_inj|
                              split; [apply memory_path_inj|
                                      apply model_path_memory_path]]]]].
  - destruct (train_epoch_ok order batches epoch w Hc Hne Hnil)
      as (w1 & w2 & tv & views & Hloop & Hrun & Hfiles & _ & _ & _ & _ & Hlen).
    cbn zeta. rewrite Hloop, Hrun. cbn [trace_of world_of fst snd].
    split; [reflexivity|]. split; [|split; [apply checkpoints_views|exact Hfiles]].
    apply last_views. intros ->. destruct batches; [done|discriminate Hlen].
  - destruct (train_ok args order w Hc Hne Hnil) as (t & w' & tvs & Hloop & Hrun).
    destruct (epochs_loop_ok order batches E 0 (set_train_loss_set [] w) Hc Hne Hnil)
      as (t' & w'' & tvs' & Hloop' & Hcp & _ & _ & _ & _ & Hfiles).
    fold batches E in Hloop. rewrite Hloop in Hloop'.
    injection Hloop' as <- <- <-.
    cbn zeta. rewrite Hrun. cbn [trace_of world_of fst snd]. split.
    + rewrite Hcp. apply seq_from_one. intros e. do 2 f_equal. lia.
    + intros e He. destruct e as [|i]; [lia|].
      destruct (Hfiles i) as [Ha Hb]; [lia|]. cbn zeta in Ha, Hb.
      replace (Z.of_nat (S i)) with (Z.of_nat (0 + i) + 1)%Z by lia.
      split; assumption.
  - intros model_dict o e w0.
    unfold save_checkpoint, bind, emit, ensure_dir, write_file, modify, ret.
    cbn [default]. fold checkpoints_root.
    destruct (bool_decide (checkpoints_root ∈ dirs w0)); reflexivity.
Qed.

(** C9 (argument error at the end of training).  Called without
    [order], [save_trainloss] raises [TypeError] before it does
    anything.  So a run in mode [train], whose epochs complete (non-empty
    stream of non-empty batches, memory that can store), ends with
    [TypeError]: no plot is drawn, every epoch has saved its checkpoint
    before, the last call of the run being the save of the last epoch,
    and the checkpoint files are all there when the run ends. *)
Theorem train_mode_argument_error (args : Args) w :
  let batches := DataLoader (order args) "train" (batch_size args) in
  let E := Z.to_nat (epochs args) in
  mode args = "train" -> 0 < default_capacity ->
  Forall nonempty batches -> batches <> [] ->
  let run := main rng DataLoader ReplayModel default_capacity args w in
  (forall l base_loc w0,
     save_trainloss (Mdl := Mdl) (Snapshot := Snapshot) l None base_loc w0 =
     ([], w0, Raise TypeError)) /\
  result_of run = Raise TypeError /\
  plots (trace_of run) = 0 /\
  checkpoints (trace_of run) =
    map (fun e => (order args, Z.of_nat e, true)) (seq 1 E) /\
  (E <> 0 ->
   last (trace_of run) = Some (EvSaveCheckpoint (order args) (Z.of_nat E) true)) /\
  (forall e, 1 <= e <= E ->
     is_Some (files (world_of run) !! model_path (order args) (Z.of_nat e)) /\
     is_Some (files (world_of run) !! memory_path (Z.of_nat e))).
Proof.
  intros batches E Hmode Hcap Hne Hnil run.
  split; [intros; reflexivity|].
  set (w0 := set_memory (ReplayMemory.create default_capacity) (draws w)
               (set_model (ReplayModel None) w)).
  assert (Hc : can_store w0) by exact Hcap.
  destruct (train_ok args (order args) w0 Hc Hne Hnil)
    as (t & w' & tvs & Hloop & Htrain).
  destruct (epochs_loop_ok (order args) batches E 0 (set_train_loss_set [] w0)
              Hc Hne Hnil)
    as (t' & w'' & tvs' & Hloop' & Hcp & Hplots & _ & Hlast & _ & Hfiles).
  fold batches E in Hloop. rewrite Hloop in Hloop'. injection Hloop' as <- <- <-.
  assert (Hrun : run = (t, w', Raise TypeError)).
  { subst run. unfold main. rewrite Hmode.
    change (String.eqb "train" "train") with true. cbn match.
    unfold bind at 1. unfold bind at 1. unfold new_model.
    rewrite globals_ReplayModel. unfold modify at 1. unfold bind at 1.
    unfold modify at 1. unfold bind at 1.
    change (set_memory (ReplayMemory.create default_capacity) _ _) with w0.
    rewrite Htrain.
    reflexivity. }
  rewrite Hrun. cbn [trace_of world_of result_of fst snd].
  split; [reflexivity|]. split; [exact Hplots|]. split; [|split].
  - rewrite Hcp. apply seq_from_one. intros e. do 2 f_equal. lia.
  - intros HE. rewrite (Hlast HE). reflexivity.
  - intros e He. destruct e as [|i]; [lia|].
    destruct (Hfiles i) as [Ha Hb]; [lia|]. cbn zeta in Ha, Hb.
    replace (Z.of_nat (S i)) with (Z.of_nat (0 + i) + 1)%Z by lia.
    rewrite Ha, Hb. split; eauto.
Qed.

(** C10 as amended (test mode fails before evaluation).  No module-level
    name [EncDec] exists.  A run in mode [test] first loads the
    checkpoint file of its fixed path: when the file is missing the
    load raises, and when it is there the construction of [EncDec]
    raises [NameError].  Either way the run fails before any evaluation:
    no call is made and nothing changes. *)
Theorem test_mode_fails_before_evaluation (args : Args) w :
  mode args = "test" ->
  let run := main rng DataLoader ReplayModel default_capacity args w in
  let path := "../model_checkpoints/enc_dec/classifier_order_1_epoch_4.pth" in
  module_globals ReplayModel !! "EncDec" = None /\
  (files w !! path = None -> result_of run = Raise FileNotFoundError) /\
  (is_Some (files w !! path) -> result_of run = Raise NameError) /\
  (exists e, result_of run = Raise e) /\
  trace_of run = [] /\ inferences (trace_of run) = 0 /\ world_of run = w.
Proof.
  intros Hmode run path. split; [apply globals_EncDec|].
  assert (Hrun : run =
    match files w !! path with
    | Some _ => ([], w, Raise NameError)
    | None => ([], w, Raise FileNotFoundError)
    end).
  { subst run. unfold main. rewrite Hmode.
    change (String.eqb "test" "train") with false.
    change (String.eqb "test" "test") with true. cbn match.
    unfold bind at 1. unfold ret at 1. unfold bind at 1. unfold torch_load.
    fold path. destruct (files w !! path) as [b|]; [|reflexivity].
    unfold bind at 1. unfold new_model. rewrite globals_EncDec. reflexivity. }
  rewrite Hrun. destruct (files w !! path) as [b|];
    cbn [trace_of world_of result_of fst snd].
  - repeat split; try done; eauto.
  - repeat split; try done; eauto.
Qed.

(** *** [test] *)

(** The loop of [test] over batches in shape: one forward pass per
    batch, nothing else, and the sum of the accuracies added to the
    running total. *)
Lemma test_loop_ok (batches : list Batch) w : forall (x : Q) (k : nat),
  Forall (well_shaped (model w)) batches ->
  exists y,
    test_loop batches (Fin x, k) w =
      (map EvInfer batches, w, Ok (Fin y, k + length batches)) /\
    (y == x + fold_right Qplus 0 (map (accuracy_under (model w)) batches))%Q.
Proof.
  induction batches as [|b bs IH]; intros x k Hshape.
  - exists x. cbn. split; [by rewrite Nat.add_0_r|]. ring.
  - apply Forall_cons in Hshape as [(Hl & Hlen & Hrows) Hbs].
    destruct (IH (x + accuracy_under (model w) b)%Q (k + 1) Hbs) as (y & Hrun & Hy).
    exists y. split.
    + cbn [test_loop]. unfold bind at 1. unfold test_step, bind, model_infer, lift.
      rewrite (flat_accuracy_ok _ _ Hl Hlen Hrows). unfold ret at 1.
      cbn [fst snd np_add app]. fold (accuracy_under (model w) b).
      rewrite Hrun. cbn [map length app]. do 3 f_equal. lia.
    + rewrite Hy. cbn [map fold_right]. ring.
Qed.

(** C5 (mean accuracy).  Over a non-empty held-out stream whose batches
    the model answers in shape, [test] makes one forward pass per batch
    and no other call (no gradient, no optimizer step, no memory access),
    leaves the world as it found it, and reports the unweighted
    arithmetic mean of the accuracies of the batches, the accuracy of a
    batch being the number of rows whose [argmax] equals the label,
    divided by the size of the batch; for four batches that is the sum
    of the four accuracies divided by four.  [argmax] of a row is the
    first position that holds its maximum. *)
Theorem evaluator_mean_accuracy (args : Args) (order : Z) w :
  let batches := DataLoader order "test" (batch_size args) in
  batches <> [] -> Forall (well_shaped (model w)) batches ->
  let run := test DataLoader args order w in
  let accuracies := map (accuracy_under (model w)) batches in
  (exists q,
     result_of run = Ok (Fin q) /\
     (q == mean accuracies)%Q /\
     (forall a1 a2 a3 a4, accuracies = [a1; a2; a3; a4] ->
        (q == (a1 + a2 + a3 + a4) / 4)%Q)) /\
  trace_of run = map EvInfer batches /\
  inferences (trace_of run) = length batches /\
  optimizer_updates (trace_of run) = 0 /\
  pushed_batches (trace_of run) = [] /\
  sampled_from (trace_of run) = [] /\
  world_of run = w /\
  (forall b, well_shaped (model w) b ->
     flat_accuracy (infer (model w) (contents b) (attn_masks b)) (labels b) =
     Ok (Fin (inject_Z (Z.of_nat
                (count_equal
                   (map (fun row => Z.of_nat (argmax_index row))
                        (infer (model w) (contents b) (attn_masks b)))
                   (labels b)))
              / inject_Z (Z.of_nat (length (labels b)))))) /\
  (forall row : list Q, row <> [] ->
     argmax row = Ok (argmax_index row) /\
     exists v,
       row !! argmax_index row = Some v /\
       (forall j y, row !! j = Some y -> (y <= v)%Q) /\
       (forall j y, j < argmax_index row -> row !! j = Some y -> (y < v)%Q)).
Proof.
  intros batches Hnil Hshape run accuracies.
  destruct (test_loop_ok batches w 0%Q 0 Hshape) as (y & Hloop & Hy).
  assert (Hlen : (0 + length batches =? 0) = false)
    by (apply Nat.eqb_neq; destruct batches; [done|cbn; lia]).
  assert (Hrun : run = (map EvInfer batches, w,
                        Ok (Fin (y / inject_Z (Z.of_nat (0 + length batches)))))).
  { subst run. unfold test, bind. fold batches. rewrite Hloop.
    cbn [fst snd]. rewrite Hlen. unfold ret. cbn [np_div_nat].
    by rewrite app_nil_r. }
  rewrite Hrun. cbn [trace_of world_of result_of fst snd].
  assert (Hmean : (y / inject_Z (Z.of_nat (0 + length batches)) == mean accuracies)%Q).
  { unfold mean. subst accuracies. rewrite length_map, Hy. cbn [Nat.add].
    apply Qdiv_comp; [ring|reflexivity]. }
  split; [|repeat split].
  - eexists. split; [reflexivity|]. split; [exact Hmean|].
    intros a1 a2 a3 a4 Hacc. rewrite Hmean. unfold mean. rewrite Hacc.
    cbn [fold_right length]. apply Qdiv_comp; [ring|reflexivity].
  - clear. unfold inferences. induction batches as [|b bs IH]; [reflexivity|].
    cbn. by rewrite IH.
  - clear. unfold optimizer_updates. induction batches as [|b bs IH]; [reflexivity|].
    cbn. exact IH.
  - clear. unfold pushed_batches. induction batches as [|b bs IH]; [reflexivity|].
    cbn. exact IH.
  - clear. unfold sampled_from. induction batches as [|b bs IH]; [reflexivity|].
    cbn. exact IH.
  - intros b (Hl & Hlenb & Hrows). by apply flat_accuracy_ok.
  - by apply argmax_first_max.
  - by apply argmax_first_max.
Qed.

End ProgramFacts.

(** * Concrete runs *)

Lemma singles_nonempty (n : nat) : Forall nonempty (Toy.singles n).
Proof.
  unfold Toy.singles. apply Forall_fmap, Forall_forall. intros i _. discriminate.
Qed.

Lemma uniform_nonempty (k n : nat) : Forall nonempty (replicate k (Toy.uniform (S n))).
Proof. apply Forall_replicate. discriminate. Qed.

(** C1 at a stream of 360 single-example batches and a memory of
    capacity 100: two replay steps, the steps 180 and 360; step 1 trains
    on its live batch and step 180 on 64 copies of the example in the
    first slot of the memory, the sample for this random source. *)
Lemma replay_periodicity_witness :
  let run := epoch_loop (fun _ => 0) 0 (Toy.singles 360) (mkTracking 0 0 0)
                        (Toy.world 100) in
  can_store (Toy.world 100) /\
  Forall nonempty (Toy.singles 360) /\
  count_source FromMemory (step_sources (trace_of run)) = 2 /\
  count_source FromStream (step_sources (trace_of run)) = 358 /\
  replay_indices 1 (step_sources (trace_of run)) = [180; 360] /\
  classified_batches (trace_of run) !! 0 = Some (Toy.single 1) /\
  classified_batches (trace_of run) !! 179 =
    Some (batch_of (replicate 64 (mkExample [180%Z] [1%Z] 180%Z))).
Proof.
  assert (Hc : can_store (Toy.world 100)) by (unfold can_store; cbn; lia).
  pose proof (singles_nonempty 360) as Hne.
  destruct (replay_periodicity (fun _ => 0) (Toy.singles 360) (mkTracking 0 0 0)
              (Toy.world 100) Hc Hne)
    as (_ & _ & _ & Hm & Hs & Hidx & _ & Htrained & Hlive & _).
  refine (conj Hc (conj Hne (conj Hm (conj Hs (conj (Hidx eq_refl) (conj _ _)))))).
  - apply Hlive; [reflexivity|]. cbn. lia.
  - cbn zeta in Htrained. rewrite Htrained. vm_compute. reflexivity.
Defined.

(** C2 as stated fails: with a memory of capacity 1 and a random source
    that never selects a slot, the memory sampled at step 180 holds the
    first example only, not the live example of step 180 that was pushed
    just before. *)
Lemma coverage_counterexample :
  let run := epoch_loop (fun _ => 1) 0 (Toy.singles 180) (mkTracking 0 0 0)
                        (Toy.world 1) in
  let first := mkExample [1%Z] [1%Z] 1%Z in
  let live := mkExample [180%Z] [1%Z] 180%Z in
  (exists tv, result_of run = Ok tv) /\
  step_sources (trace_of run) !! 179 = Some FromMemory /\
  drop (6 * 179) (trace_of run) =
    [EvPush (Toy.single 180); EvSample [first] 64; EvZeroGrad;
     EvClassify (batch_of (replicate 64 first)); EvBackward; EvOptStep] /\
  examples_of (Toy.single 180) = [live] /\
  live ∉ [first].
Proof.
  cbn zeta. split; [eexists; vm_compute; reflexivity|].
  split; [vm_compute; reflexivity|].
  split; [vm_compute; reflexivity|].
  split; [reflexivity|].
  intros H. apply list_elem_of_singleton in H. discriminate H.
Qed.

(** C2 as amended, at three single-example batches and a memory of
    capacity 5. *)
Lemma coverage_before_substitution_witness :
  let run := epoch_loop (fun _ => 0) 0 (Toy.singles 3) (mkTracking 0 0 0)
                        (Toy.world 5) in
  can_store (Toy.world 5) /\
  Forall nonempty (Toy.singles 3) /\
  pushed_batches (trace_of run) = Toy.singles 3.
Proof.
  assert (Hc : can_store (Toy.world 5)) by (unfold can_store; cbn; lia).
  pose proof (singles_nonempty 3) as Hne.
  destruct (coverage_before_substitution (fun _ => 0) (Toy.singles 3) 179
              (Toy.single 180) (mkTracking 0 0 0) (Toy.world 5) Hc Hne)
    as (_ & Hpushed & _).
  exact (conj Hc (conj Hne Hpushed)).
Defined.

(** C3 as stated fails: over 180 batches of 32 examples the 179
    live-trained steps account for 5728 examples, and the count is 5792:
    the 64 examples of the replay step are counted too. *)
Lemma example_count_counterexample :
  let batches := replicate 180 (Toy.uniform 32) in
  let run := train_epoch (fun _ => 0) 1 batches 0 (Toy.world 100) in
  exists tv,
    result_of run = Ok tv /\
    Forall (fun b => size0 b = 32) batches /\
    count_source FromStream (step_sources (trace_of run)) = 179 /\
    nb_tr_examples tv = 179 * 32 + 64 /\
    nb_tr_examples tv <> 179 * 32.
Proof.
  cbn zeta. eexists. split; [vm_compute; reflexivity|].
  split; [apply Forall_replicate; reflexivity|].
  split; [vm_compute; reflexivity|].
  split; [vm_compute; reflexivity|].
  cbn [nb_tr_examples]. lia.
Qed.

(** C3 as amended, at 180 batches of 32 examples. *)
Lemma example_count_witness :
  let batches := replicate 180 (Toy.uniform 32) in
  let run := train_epoch (fun _ => 0) 1 batches 0 (Toy.world 100) in
  can_store (Toy.world 100) /\
  Forall nonempty batches /\
  batches <> [] /\
  exists tv, result_of run = Ok tv /\ nb_tr_examples tv = 179 * 32 + 1 * 64.
Proof.
  assert (Hc : can_store (Toy.world 100)) by (unfold can_store; cbn; lia).
  pose proof (uniform_nonempty 180 31) as Hne.
  assert (Hnil : replicate 180 (Toy.uniform 32) <> []) by discriminate.
  destruct (example_count (fun _ => 0) 1 (replicate 180 (Toy.uniform 32)) 0
              (Toy.world 100) Hc Hne Hnil) as (tv & Hres & _ & _ & Hsize).
  refine (conj Hc (conj Hne (conj Hnil _))).
  exists tv. split; [exact Hres|].
  apply (Hsize 32). apply Forall_replicate. reflexivity.
Defined.

(** C4 as stated fails: at the first replay trigger of a run over 180
    single-example batches, a memory of capacity 100 holds 100 examples,
    fewer than the 180 batches pushed. *)
Lemma sample_never_empty_counterexample :
  let run := epoch_loop (fun _ => 0) 0 (Toy.singles 180) (mkTracking 0 0 0)
                        (Toy.world 100) in
  pushed_batches (trace_of run) = Toy.singles 180 /\
  Forall (fun b => length (examples_of b) = 1) (Toy.singles 180) /\
  exists held,
    sampled_from (trace_of run) = [held] /\
    length held = 100 /\ length held < 180.
Proof.
  cbn zeta. split; [vm_compute; reflexivity|].
  split; [apply Forall_fmap, Forall_forall; intros i _; reflexivity|].
  eexists. split; [vm_compute; reflexivity|].
  split; [reflexivity|]. cbn. lia.
Qed.

(** C4 as amended, at 180 single-example batches and a memory of
    capacity 100. *)
Lemma sample_never_empty_witness :
  let run := epoch_loop (fun _ => 0) 0 (Toy.singles 180) (mkTracking 0 0 0)
                        (Toy.world 100) in
  can_store (Toy.world 100) /\
  Forall nonempty (Toy.singles 180) /\
  Forall (fun held => held <> []) (sampled_from (trace_of run)).
Proof.
  assert (Hc : can_store (Toy.world 100)) by (unfold can_store; cbn; lia).
  pose proof (singles_nonempty 180) as Hne.
  destruct (sample_never_empty (fun _ => 0) (Toy.singles 180) (mkTracking 0 0 0)
              (Toy.world 100) Hc Hne) as (_ & _ & _ & Hheld).
  exact (conj Hc (conj Hne Hheld)).
Defined.

(** C5 at the four held-out batches of accuracies 1, 1/2, 0 and 2/3. *)
Lemma evaluator_mean_accuracy_witness :
  let run := test (Toy.loader [] Toy.held_out4) (Toy.args "test" 1) 1
                  (Toy.world 1) in
  Toy.held_out4 <> [] /\
  Forall (well_shaped (model (Toy.world 1))) Toy.held_out4 /\
  exists q, result_of run = Ok (Fin q) /\ (q == (1 + 1 / 2 + 0 + 2 / 3) / 4)%Q.
Proof.
  assert (Hnil : Toy.held_out4 <> []) by discriminate.
  assert (Hshape : Forall (well_shaped (model (Toy.world 1))) Toy.held_out4).
  { repeat constructor; discriminate. }
  destruct (evaluator_mean_accuracy (Toy.loader [] Toy.held_out4)
              (Toy.args "test" 1) 1 (Toy.world 1) Hnil Hshape)
    as ((q & Hres & _ & Hfour) & _).
  refine (conj Hnil (conj Hshape _)).
  exists q. split; [exact Hres|].
  rewrite (Hfour _ _ _ _ eq_refl). reflexivity.
Defined.

(** C6 at 180 single-example batches and a memory of capacity 100: 180
    optimizer steps; step 180, a replay step, classifies 64 copies of
    the example in the first slot of the memory, the sample for this
    random source, and the losses recorded are 179 times 1 and once 64,
    the sizes of the training batches, which is the loss of the counting
    model. *)
Lemma one_update_per_batch_witness :
  let run := epoch_loop (fun _ => 0) 0 (Toy.singles 180) (mkTracking 0 0 0)
                        (Toy.world 100) in
  can_store (Toy.world 100) /\
  Forall nonempty (Toy.singles 180) /\
  optimizer_updates (trace_of run) = 180 /\
  classified_batches (trace_of run) !! 179 =
    Some (batch_of (replicate 64 (mkExample [180%Z] [1%Z] 180%Z))) /\
  train_loss_set (world_of run) = replicate 179 1%Q ++ [64%Q].
Proof.
  assert (Hc : can_store (Toy.world 100)) by (unfold can_store; cbn; lia).
  pose proof (singles_nonempty 180) as Hne.
  destruct (one_update_per_batch (fun _ => 0) (Toy.singles 180) (mkTracking 0 0 0)
              (Toy.world 100) Hc Hne)
    as (trained & tv' & _ & _ & _ & Hcls & _ & Hupd & _ & _ & Htb & Hloss & _).
  refine (conj Hc (conj Hne (conj Hupd (conj _ _)))).
  - rewrite Hcls, Htb. vm_compute. reflexivity.
  - rewrite Hloss, Htb. vm_compute. reflexivity.
Defined.

(** C8 at two epochs over three single-example batches. *)
Lemma checkpoint_per_epoch_witness :
  let run := train (fun _ => 0) (Toy.loader (Toy.singles 3) [])
                   (Toy.args "train" 2) 1 (Toy.world 5) in
  can_store (Toy.world 5) /\
  Forall nonempty (Toy.singles 3) /\
  Toy.singles 3 <> [] /\
  checkpoints (trace_of run) = [(1, 1, true); (1, 2, true)]%Z.
Proof.
  assert (Hc : can_store (Toy.world 5)) by (unfold can_store; cbn; lia).
  pose proof (singles_nonempty 3) as Hne.
  assert (Hnil : Toy.singles 3 <> []) by discriminate.
  destruct (checkpoint_per_epoch (fun _ => 0) (Toy.loader (Toy.singles 3) [])
              (Toy.args "train" 2) 1 0 (Toy.world 5) Hc Hne Hnil)
    as (_ & (Hcp & _) & _).
  exact (conj Hc (conj Hne (conj Hnil Hcp))).
Defined.

(** C9 at a run of two epochs over three single-example batches. *)
Lemma train_mode_argument_error_witness :
  let run := main (fun _ => 0) (Toy.loader (Toy.singles 3) []) (fun _ => 0) 5
                  (Toy.args "train" 2) (Toy.world 0) in
  mode (Toy.args "train" 2) = "train" /\
  0 < 5 /\
  Forall nonempty (Toy.singles 3) /\
  Toy.singles 3 <> [] /\
  result_of run = Raise TypeError /\
  last (trace_of run) = Some (EvSaveCheckpoint 1 2 true).
Proof.
  assert (Hmode : mode (Toy.args "train" 2) = "train") by reflexivity.
  assert (Hcap : 0 < 5) by lia.
  pose proof (singles_nonempty 3) as Hne.
  assert (Hnil : Toy.singles 3 <> []) by discriminate.
  destruct (train_mode_argument_error (fun _ => 0) (Toy.loader (Toy.singles 3) [])
              (fun _ => 0) 5 (Toy.args "train" 2) (Toy.world 0)
              Hmode Hcap Hne Hnil)
    as (_ & Hres & _ & _ & Hlast & _).
  refine (conj Hmode (conj Hcap (conj Hne (conj Hnil (conj Hres _))))).
  apply Hlast. discriminate.
Defined.

(** C10 as stated fails: without the checkpoint file the run in mode
    [test] ends with the error of the load, not with [NameError]. *)
Lemma test_mode_counterexample :
  let run := main (fun _ => 0) (Toy.loader [] Toy.held_out4) (fun _ => 0) 5
                  (Toy.args "test" 1) (Toy.world 0) in
  files (Toy.world 0)
    !! "../model_checkpoints/enc_dec/classifier_order_1_epoch_4.pth" = None /\
  result_of run = Raise FileNotFoundError /\
  result_of run <> Raise NameError.
Proof.
  cbn zeta. split; [reflexivity|]. split; [vm_compute; reflexivity|].
  vm_compute. discriminate.
Qed.

(** C10 as amended, without and with the checkpoint file. *)
Lemma test_mode_fails_before_evaluation_witness :
  let w := Toy.world 0 in
  let w' := set_files
              {[ "../model_checkpoints/enc_dec/classifier_order_1_epoch_4.pth"
                 := ModelBlob 7 ]} w in
  let run (w0 : World) :=
    main (fun _ => 0) (Toy.loader [] Toy.held_out4) (fun _ => 0) 5
         (Toy.args "test" 1) w0 in
  mode (Toy.args "test" 1) = "test" /\
  result_of (run w) = Raise FileNotFoundError /\
  result_of (run w') = Raise NameError /\
  trace_of (run w') = [].
Proof.
  assert (Hmode : mode (Toy.args "test" 1) = "test") by reflexivity.
  cbn zeta.
  destruct (test_mode_fails_before_evaluation (fun _ => 0)
              (Toy.loader [] Toy.held_out4) (fun _ => 0) 5 (Toy.args "test" 1)
              (Toy.world 0) Hmode) as (_ & Hmissing & _).
  destruct (test_mode_fails_before_evaluation (fun _ => 0)
              (Toy.loader [] Toy.held_out4) (fun _ => 0) 5 (Toy.args "test" 1)
              (set_files
                 {[ "../model_checkpoints/enc_dec/classifier_order_1_epoch_4.pth"
                    := ModelBlob 7 ]} (Toy.world 0)) Hmode)
    as (_ & _ & Hthere & _ & Htrace & _).
  refine (conj Hmode (conj (Hmissing _) (conj (Hthere _) Htrace))).
  - reflexivity.
  - eexists. vm_compute. reflexivity.
Defined.


(** * Further properties of the program *)

(** ** The parameter groups *)

Section GroupFacts.

Lemma prefix_spec (s1 s2 : string) :
  String.prefix s1 s2 = true <-> exists post, s2 = s1 +:+ post.
Proof.
  revert s2. induction s1 as [|a s1 IH]; intros s2.
  - destruct s2; cbn; split; eauto.
  - destruct s2 as [|b s2]; cbn.
    + split; [discriminate|]. intros [post [=]].
    + destruct (Ascii.ascii_dec a b) as [->|Hab].
      * rewrite IH. split; intros [post H]; exists post; [by rewrite H|].
        by injection H.
      * split; [discriminate|]. intros [post [= ? _]]. done.
Qed.

(** [contains] is the substring test. *)
Lemma contains_spec (nd n : string) :
  contains nd n = true <-> exists pre post, n = pre +:+ nd +:+ post.
Proof.
  induction n as [|a n IH].
  - cbn [contains]. rewrite orb_false_r, prefix_spec. split.
    + intros [post H]. by exists EmptyString, post.
    + intros (pre & post & H). destruct pre; [by exists post|discriminate].
  - cbn [contains]. rewrite orb_true_iff, prefix_spec, IH. split.
    + intros [[post H]|(pre & post & H)].
      * by exists EmptyString, post.
      * exists (String a pre), post. cbn. by rewrite H.
    + intros (pre & post & H). destruct pre as [|b pre].
      * left. by exists post.
      * right. exists pre, post. cbn in H. by injection H.
Qed.

Lemma any_no_decay_spec (n : string) :
  any_no_decay n = true <->
  exists nd pre post,
    (nd = "bias" \/ nd = "gamma" \/ nd = "beta") /\ n = pre +:+ nd +:+ post.
Proof.
  unfold any_no_decay, no_decay. cbn [existsb].
  rewrite !orb_true_iff, !contains_spec. split.
  - intros [H|[H|[H|H]]]; [| | |done];
      destruct H as (pre & post & H); eauto 10.
  - intros (nd & pre & post & [->|[->| ->]] & H); eauto 10.
Qed.

Lemma filter_split_length {A : Type} (f : A -> bool) (l : list A) :
  length (List.filter (fun x => negb (f x)) l) + length (List.filter f l) = length l.
Proof.
  induction l as [|x l IH]; [reflexivity|]. cbn. destruct (f x); cbn; lia.
Qed.

Lemma filter_split_perm {A : Type} (f : A -> bool) (l : list A) :
  Permutation (List.filter (fun x => negb (f x)) l ++ List.filter f l) l.
Proof.
  induction l as [|x l IH]; [reflexivity|]. cbn. destruct (f x); cbn.
  - rewrite <- Permutation_middle. by constructor.
  - by constructor.
Qed.

(** X13.  The two parameter groups the optimizer is built from split the
    named parameters of the classifier: the first group, decayed at
    rate 1/100, and the second, not decayed, hold together every
    parameter once; a parameter is in the second group exactly when its
    name has [bias], [gamma] or [beta] as a substring, and in the first
    group otherwise. *)
Theorem parameter_groups_split {P : Type} (param_optimizer : list (string * P)) :
  exists decayed exempted,
    optimizer_grouped_parameters param_optimizer =
      [mkGroup decayed (1 # 100); mkGroup exempted 0] /\
    Permutation (decayed ++ exempted) (map snd param_optimizer) /\
    length decayed + length exempted = length param_optimizer /\
    (forall p, p ∈ exempted <->
       exists n nd pre post,
         (n, p) ∈ param_optimizer /\
         (nd = "bias" \/ nd = "gamma" \/ nd = "beta") /\
         n = pre +:+ nd +:+ post) /\
    (forall p, p ∈ decayed <->
       exists n,
         (n, p) ∈ param_optimizer /\
         forall nd pre post,
           nd = "bias" \/ nd = "gamma" \/ nd = "beta" ->
           n <> pre +:+ nd +:+ post).
Proof.
  eexists _, _. split; [reflexivity|]. split; [|split; [|split]].
  - rewrite <- map_app. apply Permutation_map, filter_split_perm.
  - rewrite !length_map. apply filter_split_length.
  - intros p. rewrite list_elem_of_fmap. split.
    + intros ([n p'] & -> & Hin).
      apply list_elem_of_In, List.filter_In in Hin as [Hin Hex].
      apply any_no_decay_spec in Hex as (nd & pre & post & Hnd & Hn).
      exists n, nd, pre, post. by rewrite list_elem_of_In.
    + intros (n & nd & pre & post & Hin & Hnd & Hn).
      exists (n, p). split; [reflexivity|].
      apply list_elem_of_In, List.filter_In. split; [by apply list_elem_of_In|].
      apply any_no_decay_spec. eauto 10.
  - intros p. rewrite list_elem_of_fmap. split.
    + intros ([n p'] & -> & Hin).
      apply list_elem_of_In, List.filter_In in Hin as [Hin Hex].
      exists n. split; [by rewrite list_elem_of_In|].
      intros nd pre post Hnd Hn. apply negb_true_iff in Hex.
      assert (any_no_decay n = true) by (apply any_no_decay_spec; eauto 10).
      cbn in *. congruence.
    + intros (n & Hin & Hfree).
      exists (n, p). split; [reflexivity|].
      apply list_elem_of_In, List.filter_In. split; [by apply list_elem_of_In|].
      apply negb_true_iff. cbn [fst]. destruct (any_no_decay n) eqn:E; [|reflexivity].
      apply any_no_decay_spec in E as (nd & pre & post & Hnd & Hn).
      by destruct (Hfree nd pre post Hnd).
Qed.

End GroupFacts.

(** ** Checkpoints, modes and edge cases of [train] *)

Section SinkFacts.

Context {Mdl Snapshot : Type}.

Implicit Types (w : @World Mdl Snapshot).

(** What [save_checkpoint] does to the world, for every choice of its
    optional arguments. *)
Lemma save_checkpoint_files model_dict order epoch
    (mem : option (list Example)) (base_loc : option string) w :
  exists w',
    save_checkpoint model_dict order epoch mem base_loc w =
      ([EvSaveCheckpoint order epoch
          (match mem with Some _ => true | None => false end)], w', Ok tt) /\
    files w' =
      (let saved :=
         <[path_join (checkpoints_dir_of base_loc) (checkpoints_file order epoch)
             := ModelBlob model_dict]> (files w) in
       match mem with
       | Some m => <[memory_file (checkpoints_dir_of base_loc) epoch
                       := MemoryBlob m]> saved
       | None => saved
       end) /\
    checkpoints_dir_of base_loc ∈ dirs w' /\
    (forall d, d ∈ dirs w -> d ∈ dirs w') /\
    model w' = model w /\ memory w' = memory w.
Proof.
  unfold save_checkpoint, bind, emit, ensure_dir, write_file, modify, ret.
  fold (checkpoints_dir_of base_loc).
  destruct (bool_decide (checkpoints_dir_of base_loc ∈ dirs w)) eqn:E;
    destruct mem as [m|]; cbn; eexists; (split; [reflexivity|]); cbn;
    (split; [reflexivity|]);
    try (apply bool_decide_eq_true in E); repeat split; auto; set_solver.
Qed.

(** X3.  The file of a memory checkpoint is named after the epoch only:
    two saves for the same epoch and different task orders leave both
    model files, each with its own model, and one memory file, which
    holds the memory of the second save; the memory of the first save,
    there after the first save, is lost. *)
Theorem memory_checkpoint_shared_across_orders
    md1 md2 (o1 o2 e : Z) (m1 m2 : list Example) w :
  o1 <> o2 ->
  let w1 := world_of (save_checkpoint md1 o1 e (Some m1) None w) in
  let w2 := world_of (save_checkpoint md2 o2 e (Some m2) None w1) in
  files w1 !! memory_path e = Some (MemoryBlob m1) /\
  files w2 !! memory_path e = Some (MemoryBlob m2) /\
  files w2 !! model_path o1 e = Some (ModelBlob md1) /\
  files w2 !! model_path o2 e = Some (ModelBlob md2).
Proof.
  intros Ho w1 w2.
  destruct (save_checkpoint_files md1 o1 e (Some m1) None w)
    as (w1' & Hrun1 & Hfiles1 & _).
  assert (Hw1 : w1 = w1') by (subst w1; by rewrite Hrun1). clearbody w1. subst w1'.
  destruct (save_checkpoint_files md2 o2 e (Some m2) None w1)
    as (w2' & Hrun2 & Hfiles2 & _).
  assert (Hw2 : w2 = w2') by (subst w2; by rewrite Hrun2). clearbody w2. subst w2'.
  change (checkpoints_dir_of None) with checkpoints_root in Hfiles1, Hfiles2.
  fold (model_path o1 e) (memory_path e) in Hfiles1.
  fold (model_path o2 e) (memory_path e) in Hfiles2.
  cbn zeta in Hfiles1, Hfiles2. rewrite Hfiles2, Hfiles1.
  assert (Hm : model_path o1 e <> model_path o2 e).
  { intros H. by apply model_path_inj in H as [? _]. }
  assert (H1 : memory_path e <> model_path o1 e)
    by apply not_eq_sym, model_path_memory_path.
  assert (H2 : memory_path e <> model_path o2 e)
    by apply not_eq_sym, model_path_memory_path.
  split; [by rewrite lookup_insert_eq|]. split; [by rewrite lookup_insert_eq|].
  split.
  - rewrite (lookup_insert_ne _ (memory_path e)) by exact H1.
    rewrite (lookup_insert_ne _ (model_path o2 e)) by (by apply not_eq_sym).
    rewrite (lookup_insert_ne _ (memory_path e)) by exact H1.
    by rewrite lookup_insert_eq.
  - rewrite (lookup_insert_ne _ (memory_path e)) by exact H2.
    by rewrite lookup_insert_eq.
Qed.

End SinkFacts.

Section ModeFacts.

Context {Mdl Snapshot : Type} {cls : Classifier Mdl Snapshot}.
Variable rng : nat -> nat.
Variable DataLoader : Z -> string -> Z -> list Batch.
Variable ReplayModel : option (Blob Snapshot) -> Mdl.
Variable default_capacity : nat.

Implicit Types (w : @World Mdl Snapshot).

(** A run in mode [train] whose epochs complete. *)
Lemma main_train_run (args : Args) w :
  let batches := DataLoader (order args) "train" (batch_size args) in
  let w0 := set_memory (ReplayMemory.create default_capacity) (draws w)
              (set_model (ReplayModel None) w) in
  mode args = "train" -> 0 < default_capacity ->
  Forall nonempty batches -> batches <> [] ->
  exists t w' tvs,
    epochs_loop rng (order args) batches 0 (Z.to_nat (epochs args))
                (set_train_loss_set [] w0) = (t, w', Ok tvs) /\
    main rng DataLoader ReplayModel default_capacity args w =
      (t, w', Raise TypeError).
Proof.
  intros batches w0 Hmode Hcap Hne Hnil.
  assert (Hc : can_store w0) by exact Hcap.
  destruct (train_ok rng DataLoader args (order args) w0 Hc Hne Hnil)
    as (t & w' & tvs & Hloop & Htrain).
  exists t, w', tvs. split; [exact Hloop|].
  unfold main. rewrite Hmode.
  change (String.eqb "train" "train") with true. cbn match.
  unfold bind at 1. unfold bind at 1. unfold new_model.
  rewrite globals_ReplayModel. unfold modify at 1. unfold bind at 1.
  unfold modify at 1. unfold bind at 1.
  change (set_memory (ReplayMemory.create default_capacity) _ _) with w0.
  rewrite Htrain. reflexivity.
Qed.

(** A run in mode [test]. *)
Lemma main_test_run (args : Args) w :
  mode args = "test" ->
  main rng DataLoader ReplayModel default_capacity args w =
  match files w !! test_checkpoint with
  | Some _ => ([], w, Raise NameError)
  | None => ([], w, Raise FileNotFoundError)
  end.
Proof.
  intros Hmode. unfold main. rewrite Hmode.
  change (String.eqb "test" "train") with false.
  change (String.eqb "test" "test") with true. cbn match.
  unfold bind at 1. unfold ret at 1. unfold bind at 1. unfold torch_load.
  fold test_checkpoint. destruct (files w !! test_checkpoint) as [b|]; [|reflexivity].
  unfold bind at 1. unfold new_model. rewrite globals_EncDec. reflexivity.
Qed.

Lemma test_checkpoint_not_written (o e e' : Z) :
  test_checkpoint <> model_path o e /\ test_checkpoint <> memory_path e'.
Proof.
  rewrite model_path_eq, memory_path_eq. unfold test_checkpoint.
  change ("../model_checkpoints/REPLAY/classifier_order_" +:+ ?x)
    with ("../model_checkpoints/" +:+ String "R" ("EPLAY/classifier_order_" +:+ x)).
  change ("../model_checkpoints/REPLAY/epoch_" +:+ ?x)
    with ("../model_checkpoints/" +:+ String "R" ("EPLAY/epoch_" +:+ x)).
  change "../model_checkpoints/enc_dec/classifier_order_1_epoch_4.pth"
    with ("../model_checkpoints/"
            +:+ String "e" "nc_dec/classifier_order_1_epoch_4.pth").
  split; intros H; apply (inj _) in H; discriminate H.
Qed.

(** X4.  Training never produces the checkpoint that the test mode
    loads: a run in mode [train] whose epochs complete writes under the
    directory of [MODEL_NAME] only, so when the file the test mode loads
    was missing before the run it is still missing afterwards, and a run
    in mode [test] that follows fails at the load. *)
Theorem test_never_finds_training_checkpoint (args_train args_test : Args) w :
  let batches := DataLoader (order args_train) "train" (batch_size args_train) in
  mode args_train = "train" -> mode args_test = "test" ->
  0 < default_capacity -> Forall nonempty batches -> batches <> [] ->
  files w !! test_checkpoint = None ->
  let w1 := world_of (main rng DataLoader ReplayModel default_capacity
                           args_train w) in
  files w1 !! test_checkpoint = None /\
  result_of (main rng DataLoader ReplayModel default_capacity args_test w1) =
    Raise FileNotFoundError.
Proof.
  intros batches Htrain Htest Hcap Hne Hnil Hmissing w1.
  destruct (main_train_run args_train w Htrain Hcap Hne Hnil)
    as (t & w' & tvs & Hloop & Hrun).
  assert (Hw1 : w1 = w') by (subst w1; by rewrite Hrun). clearbody w1. subst w'.
  set (w0 := set_train_loss_set []
               (set_memory (ReplayMemory.create default_capacity) (draws w)
                  (set_model (ReplayModel None) w))) in *.
  assert (Hc : can_store w0) by exact Hcap.
  destruct (epochs_loop_ok rng (order args_train) batches
              (Z.to_nat (epochs args_train)) 0 w0 Hc Hne Hnil)
    as (t' & w'' & tvs' & Hloop' & _ & _ & _ & _ & Hkeep & _).
  fold batches in Hloop. rewrite Hloop in Hloop'. injection Hloop' as _ <- _.
  assert (Hstill : files w1 !! test_checkpoint = None).
  { rewrite Hkeep; [exact Hmissing|].
    intros e _. apply test_checkpoint_not_written. }
  split; [exact Hstill|].
  rewrite (main_test_run args_test w1 Htest), Hstill. reflexivity.
Qed.

(** X1.  A mode other than [train] and [test], such as the [eval] of
    the help text of [--mode], selects no branch: the run makes no call,
    changes nothing and ends without an error. *)
Theorem other_mode_does_nothing (args : Args) w :
  mode args <> "train" -> mode args <> "test" ->
  main rng DataLoader ReplayModel default_capacity args w = ([], w, Ok tt).
Proof.
  intros Htrain Htest. unfold main.
  apply String.eqb_neq in Htrain, Htest. rewrite Htrain, Htest. reflexivity.
Qed.

(** X5.  With an empty training stream and at least one epoch, [train]
    stops in its first epoch at the division of the running loss by the
    number of steps: it raises [ZeroDivisionError] before any batch is
    pushed to or sampled from the memory, before any forward pass,
    optimizer step or checkpoint.  The memory, the files and the
    directories are as they were, the list of losses is empty, and the
    model has only been put in training mode. *)
Theorem train_on_empty_stream (args : Args) (order : Z) w :
  DataLoader order "train" (batch_size args) = [] -> (0 < epochs args)%Z ->
  let run := train rng DataLoader args order w in
  result_of run = Raise ZeroDivisionError /\
  pushed_batches (trace_of run) = [] /\
  sampled_from (trace_of run) = [] /\
  classified_batches (trace_of run) = [] /\
  optimizer_updates (trace_of run) = 0 /\
  checkpoints (trace_of run) = [] /\
  model (world_of run) = train_mode (model w) /\
  memory (world_of run) = memory w /\
  train_loss_set (world_of run) = [] /\
  files (world_of run) = files w /\
  dirs (world_of run) = dirs w.
Proof.
  intros Hempty Hepochs run. subst run. unfold train. rewrite Hempty.
  destruct (Z.to_nat (epochs args)) as [|n] eqn:E; [lia|].
  repeat split.
Qed.

(** X6.  With no epoch to run ([--epochs] zero or negative), [train]
    goes straight to its last statement, whatever the training stream:
    it raises [TypeError], and on the way no batch is pushed to or
    sampled from the memory, there is no forward pass, no optimizer step,
    no checkpoint and no plot.  The model, still in the mode it was in,
    the memory and the files are as they were, and the list of losses is
    empty. *)
Theorem train_without_epochs (args : Args) (order : Z) w :
  (epochs args <= 0)%Z ->
  let run := train rng DataLoader args order w in
  result_of run = Raise TypeError /\
  pushed_batches (trace_of run) = [] /\
  sampled_from (trace_of run) = [] /\
  classified_batches (trace_of run) = [] /\
  optimizer_updates (trace_of run) = 0 /\
  checkpoints (trace_of run) = [] /\
  plots (trace_of run) = 0 /\
  model (world_of run) = model w /\
  memory (world_of run) = memory w /\
  train_loss_set (world_of run) = [] /\
  files (world_of run) = files w.
Proof.
  intros Hepochs run. subst run. unfold train.
  assert (E : Z.to_nat (epochs args) = 0) by lia. rewrite E.
  repeat split.
Qed.

End ModeFacts.

(** ** Whole runs of [train] *)

Section RunFacts.

Context {Mdl Snapshot : Type} {cls : Classifier Mdl Snapshot}.
Variable rng : nat -> nat.
Variable DataLoader : Z -> string -> Z -> list Batch.

Implicit Types (w : @World Mdl Snapshot) (tv : Tracking).

(** Every call of [memory.sample] in a trace is one step that took its
    batch from memory. *)
Lemma sampled_from_count (t : list event) :
  length (sampled_from t) = count_source FromMemory (step_sources t).
Proof.
  induction t as [|e t IH]; [reflexivity|].
  unfold sampled_from, step_sources, count_source in *.
  destruct e; cbn; rewrite ?IH; reflexivity.
Qed.

Lemma count_source_repeat (s : source) (l : list source) (n : nat) :
  count_source s (concat (replicate n l)) = n * count_source s l.
Proof.
  induction n as [|n IH]; [reflexivity|].
  cbn [replicate concat]. rewrite count_source_app, IH. lia.
Qed.

(** The steps of one epoch, read off its trace. *)
Lemma train_epoch_steps (order : Z) (batches : list Batch) (epoch : nat) w :
  can_store w -> Forall nonempty batches -> batches <> [] ->
  exists t w' tv,
    train_epoch rng order batches epoch w = (t, w', Ok tv) /\
    step_sources t = map scheduled (seq 1 (length batches)) /\
    pushed_batches t = batches /\
    can_store w' /\
    length (train_loss_set w') = length (train_loss_set w) + length batches.
Proof.
  intros Hc Hne Hnil.
  destruct (train_epoch_ok rng order batches epoch w Hc Hne Hnil)
    as (w1 & w' & tv & views & Hloop & Hrun & _ & _ & _ & Hcap & Hloss & _).
  destruct (epoch_loop_ok rng batches 0 (mkTracking 0 0 0)
              (set_model (train_mode (model w)) w) Hc Hne)
    as (w1' & tv1 & views' & Hloop' & Hlive & Hidx & Hok & _).
  rewrite Hloop in Hloop'. injection Hloop' as Hviews _ _.
  eexists _, w', tv. split; [exact Hrun|].
  split; [|split; [|split; [|exact Hloss]]].
  - unfold step_sources. rewrite omap_app. cbn [omap source_of]. rewrite app_nil_r.
    fold (step_sources (flat_map step_events views)).
    rewrite Hviews, step_sources_views, (sources_scheduled _ Hok), Hidx.
    reflexivity.
  - unfold pushed_batches. rewrite omap_app. cbn [omap]. rewrite app_nil_r.
    fold (pushed_batches (flat_map step_events views)).
    by rewrite Hviews, pushed_batches_views.
  - unfold can_store in *. lia.
Qed.

(** The steps of the loop over the epochs. *)
Lemma epochs_loop_steps (order : Z) (batches : list Batch) : forall n epoch w,
  can_store w -> Forall nonempty batches -> batches <> [] ->
  exists t w' tvs,
    epochs_loop rng order batches epoch n w = (t, w', Ok tvs) /\
    step_sources t =
      concat (replicate n (map scheduled (seq 1 (length batches)))) /\
    pushed_batches t = concat (replicate n batches) /\
    length (train_loss_set w') = length (train_loss_set w) + n * length batches.
Proof.
  induction n as [|n IH]; intros epoch w Hc Hne Hnil.
  - exists [], w, []. cbn. repeat split. lia.
  - destruct (train_epoch_steps order batches epoch w Hc Hne Hnil)
      as (t1 & w1 & tv & Hrun & Hsrc & Hpushed & Hc1 & Hloss).
    destruct (IH (S epoch) w1 Hc1 Hne Hnil)
      as (t2 & w' & tvs & IHrun & IHsrc & IHpushed & IHloss).
    exists (t1 ++ t2), w', (tv :: tvs). split; [|split; [|split]].
    + cbn [epochs_loop]. unfold bind at 1. rewrite Hrun.
      unfold bind. rewrite IHrun. cbn. by rewrite app_nil_r.
    + unfold step_sources in *. rewrite omap_app, Hsrc, IHsrc. reflexivity.
    + unfold pushed_batches in *. rewrite omap_app, Hpushed, IHpushed. reflexivity.
    + rewrite IHloss, Hloss. lia.
Qed.

(** A run of [train] whose epochs complete. *)
Lemma train_steps (args : Args) (order : Z) w :
  let batches := DataLoader order "train" (batch_size args) in
  let E := Z.to_nat (epochs args) in
  can_store w -> Forall nonempty batches -> batches <> [] ->
  exists t w',
    train rng DataLoader args order w = (t, w', Raise TypeError) /\
    step_sources t =
      concat (replicate E (map scheduled (seq 1 (length batches)))) /\
    pushed_batches t = concat (replicate E batches) /\
    length (train_loss_set w') = E * length batches.
Proof.
  intros batches E Hc Hne Hnil.
  destruct (epochs_loop_steps order batches E 0 (set_train_loss_set [] w) Hc Hne Hnil)
    as (t & w' & tvs & Hrun & Hsrc & Hpushed & Hloss).
  exists t, w'. split; [|split; [exact Hsrc|split; [exact Hpushed|exact Hloss]]].
  unfold train, bind, modify, get. fold batches E. rewrite Hrun.
  unfold save_trainloss, raise. cbn. by rewrite app_nil_r.
Qed.

(** X7.  The step counter restarts with every epoch: over a run of [E]
    epochs on [M] batches the steps take their batches, epoch after
    epoch, as the replay period prescribes for the steps 1 to [M].  So
    memory is sampled [E * (M / 180)] times, and with fewer than 180
    batches in the stream it is never sampled, however many epochs
    run. *)
Theorem replay_schedule_restarts (args : Args) (order : Z) w :
  let batches := DataLoader order "train" (batch_size args) in
  let E := Z.to_nat (epochs args) in
  let M := length batches in
  can_store w -> Forall nonempty batches -> batches <> [] ->
  let run := train rng DataLoader args order w in
  step_sources (trace_of run) =
    concat (replicate E
      (map (fun i => if i mod 180 =? 0 then FromMemory else FromStream)
           (seq 1 M))) /\
  length (sampled_from (trace_of run)) = E * (M / 180) /\
  (M < 180 -> sampled_from (trace_of run) = []).
Proof.
  intros batches E M Hc Hne Hnil run.
  destruct (train_steps args order w Hc Hne Hnil) as (t & w' & Hrun & Hsrc & _).
  subst run. rewrite Hrun. cbn [trace_of fst]. fold batches E M in Hsrc.
  assert (Hcount : length (sampled_from t) = E * (M / 180)).
  { rewrite sampled_from_count, Hsrc, count_source_repeat.
    by destruct (count_scheduled M) as [-> _]. }
  split; [exact Hsrc|]. split; [exact Hcount|].
  intros Hsmall. rewrite Nat.div_small in Hcount by exact Hsmall.
  destruct (sampled_from t); [reflexivity|]. cbn in Hcount. lia.
Qed.

(** X8.  Every epoch pushes the whole stream into the memory again:
    over a run of [E] epochs the batches handed to [memory.push] are the
    stream repeated [E] times, so every example is offered to the memory
    once per epoch. *)
Theorem stream_pushed_every_epoch (args : Args) (order : Z) w :
  let batches := DataLoader order "train" (batch_size args) in
  let E := Z.to_nat (epochs args) in
  can_store w -> Forall nonempty batches -> batches <> [] ->
  let run := train rng DataLoader args order w in
  pushed_batches (trace_of run) = concat (replicate E batches) /\
  length (pushed_batches (trace_of run)) = E * length batches.
Proof.
  intros batches E Hc Hne Hnil run.
  destruct (train_steps args order w Hc Hne Hnil) as (t & w' & Hrun & _ & Hpushed & _).
  subst run. rewrite Hrun. cbn [trace_of fst]. fold batches E in Hpushed.
  split; [exact Hpushed|]. rewrite Hpushed. clear.
  induction E as [|n IH]; [reflexivity|].
  cbn [replicate concat]. rewrite length_app, IH. lia.
Qed.

(** X9.  [train_loss_set] is emptied once, before the first epoch, and
    grows by one loss per step: when [save_trainloss] is called it holds
    [E * M] losses, whatever it held before. *)
Theorem loss_list_length (args : Args) (order : Z) w :
  let batches := DataLoader order "train" (batch_size args) in
  let E := Z.to_nat (epochs args) in
  can_store w -> Forall nonempty batches -> batches <> [] ->
  let run := train rng DataLoader args order w in
  length (train_loss_set (world_of run)) = E * length batches.
Proof.
  intros batches E Hc Hne Hnil run.
  destruct (train_steps args order w Hc Hne Hnil) as (t & w' & Hrun & _ & _ & Hloss).
  subst run. rewrite Hrun. exact Hloss.
Qed.

(** The losses of the loop over the data loader. *)
Lemma epoch_loop_losses (batches : list Batch) : forall step tv w,
  can_store w -> Forall nonempty batches ->
  exists t w' tv' losses,
    epoch_loop rng step batches tv w = (t, w', Ok tv') /\
    train_loss_set w' = train_loss_set w ++ losses /\
    length losses = length batches /\
    (tr_loss tv' == tr_loss tv + Qsum losses)%Q /\
    nb_tr_steps tv' = nb_tr_steps tv + length batches.
Proof.
  induction batches as [|b bs IH]; intros step tv w Hc Hne.
  - exists [], w, tv, []. cbn. rewrite app_nil_r.
    repeat split; try lia. unfold Qsum. cbn. ring.
  - apply Forall_cons in Hne as [Hb Hbs].
    assert (Hstep : exists t1 w1 loss,
      train_step rng step b tv w =
        (t1, w1, Ok (mkTracking (tr_loss tv + loss)%Q
                       (nb_tr_examples
                          (match train_step rng step b tv w with
                           | (_, _, Ok tv1) => tv1
                           | _ => tv
                           end))
                       (nb_tr_steps tv + 1))) /\
      train_loss_set w1 = train_loss_set w ++ [loss] /\
      memory w1 = memory_after_push rng b w).
    { destruct (Nat.eq_dec ((step + 1) mod REPLAY_FREQ) 0) as [Hs|Hs].
      - assert (Hheld : ReplayMemory.memory (memory_after_push rng b w) <> [])
          by (apply push_stored; assumption).
        destruct (train_step_replay rng step b tv w Hs Hheld)
          as (w1 & sampled & Hrun & _ & Hmem & _ & Hloss & _).
        rewrite Hrun. eauto 10.
      - destruct (train_step_live rng step b tv w Hs)
          as (w1 & Hrun & Hmem & _ & Hloss & _).
        rewrite Hrun. eauto 10. }
    destruct Hstep as (t1 & w1 & loss & Hrun & Hloss & Hmem).
    match type of Hrun with _ = (_, _, Ok ?x) => set (tv1 := x) in * end.
    assert (Hc1 : can_store w1).
    { unfold can_store in *. rewrite Hmem.
      unfold memory_after_push. rewrite push_capacity. exact Hc. }
    destruct (IH (S step) tv1 w1 Hc1 Hbs)
      as (t2 & w' & tv' & losses & IHrun & IHloss & IHlen & IHsum & IHsteps).
    exists (t1 ++ t2), w', tv', (loss :: losses). split; [|split; [|split; [|split]]].
    + cbn [epoch_loop]. unfold bind. rewrite Hrun, IHrun. reflexivity.
    + rewrite IHloss, Hloss, <- app_assoc. reflexivity.
    + cbn. by rewrite IHlen.
    + rewrite IHsum. subst tv1. cbn [tr_loss]. unfold Qsum. cbn [fold_right]. ring.
    + rewrite IHsteps. subst tv1. cbn [nb_tr_steps length]. lia.
Qed.

(** X10.  The running loss of an epoch is the sum of the losses the
    epoch appended to [train_loss_set], one per step; so the train loss
    an epoch reports, the running loss divided by the number of steps,
    is the mean of these losses. *)
Theorem epoch_loss_is_mean (order : Z) (batches : list Batch) (epoch : nat) w :
  can_store w -> Forall nonempty batches -> batches <> [] ->
  let run := train_epoch rng order batches epoch w in
  exists tv losses,
    result_of run = Ok tv /\
    train_loss_set (world_of run) = train_loss_set w ++ losses /\
    length losses = length batches /\
    (tr_loss tv == Qsum losses)%Q /\
    (tr_loss tv / inject_Z (Z.of_nat (nb_tr_steps tv)) == mean losses)%Q.
Proof.
  intros Hc Hne Hnil run.
  set (w0 := set_model (train_mode (model w)) w).
  destruct (epoch_loop_losses batches 0 (mkTracking 0 0 0) w0 Hc Hne)
    as (t & w1 & tv & losses & Hloop & Hloss & Hlen & Hsum & Hsteps).
  destruct (save_checkpoint_run (save_state (model w1)) order
              (Z.of_nat epoch + 1) (ReplayMemory.memory (memory w1)) w1)
    as (w' & Hsave & _ & _ & _ & Hloss').
  cbn [nb_tr_steps tr_loss] in Hsum, Hsteps.
  assert (Hsteps0 : (nb_tr_steps tv =? 0) = false).
  { apply Nat.eqb_neq. rewrite Hsteps. destruct batches; [done|]. cbn. lia. }
  assert (Hrun : run =
    (t ++ [EvSaveState; EvSaveCheckpoint order (Z.of_nat epoch + 1) true],
     w', Ok tv)).
  { subst run. unfold train_epoch, bind, modify, model_save_state, get. fold w0.
    rewrite Hloop, Hsteps0. unfold ret, raise. rewrite Hsave. reflexivity. }
  exists tv, losses. rewrite Hrun. cbn [world_of result_of fst snd].
  assert (Hq : (tr_loss tv == Qsum losses)%Q) by (rewrite Hsum; ring).
  split; [reflexivity|]. split; [by rewrite Hloss', Hloss|].
  split; [exact Hlen|]. split; [exact Hq|].
  unfold mean. fold (Qsum losses). rewrite Hq, Hsteps, Hlen. reflexivity.
Qed.

End RunFacts.

(** ** Accuracies *)

Section EvaluatorFacts.

Context {Mdl Snapshot : Type} {cls : Classifier Mdl Snapshot}.

Implicit Types (w : @World Mdl Snapshot).

Lemma count_equal_le (ps ls : list Z) : count_equal ps ls <= length ls.
Proof.
  revert ls. induction ps as [|p ps IH]; intros [|l ls]; cbn; try lia.
  specialize (IH ls). destruct (p =? l)%Z; lia.
Qed.

Lemma count_equal_all (ps ls : list Z) :
  length ps = length ls -> (count_equal ps ls = length ls <-> ps = ls).
Proof.
  revert ls. induction ps as [|p ps IH]; intros [|l ls] Hlen; try discriminate.
  - done.
  - cbn in *. injection Hlen as Hlen. pose proof (count_equal_le ps ls).
    destruct (Z.eqb_spec p l) as [->|Hpl].
    + destruct (IH ls Hlen) as [IH1 IH2]. split.
      * intros Hc. f_equal. apply IH1. lia.
      * intros [= Hps]. specialize (IH2 Hps). lia.
    + split; [lia|]. intros [= ? _]. done.
Qed.

(** The quotient of two naturals as a rational. *)
Lemma ratio_bounds (c n : nat) :
  c <= S n ->
  (0 <= inject_Z (Z.of_nat c) / inject_Z (Z.of_nat (S n)) <= 1)%Q /\
  ((inject_Z (Z.of_nat c) / inject_Z (Z.of_nat (S n)) == 1)%Q <-> c = S n).
Proof.
  intros Hle.
  change (Z.of_nat (S n)) with (Z.pos (Pos.of_succ_nat n)).
  rewrite <- Qmake_Qdiv. unfold Qle, Qeq. cbn [Qnum Qden].
  rewrite !Z.mul_1_r, ?Z.mul_1_l. rewrite Zpos_P_of_succ_nat. lia.
Qed.

(** X11.  For labels and prediction rows in shape (at least one label,
    one row per label, no row without classes), [flat_accuracy] yields
    an accuracy, which lies between 0 and 1 and is 1 exactly when the
    [argmax] of every row is the label of the row. *)
Theorem flat_accuracy_bounds (preds : list (list Q)) (labels : list Z) :
  labels <> [] -> length preds = length labels ->
  Forall (fun row => row <> []) preds ->
  exists a,
    flat_accuracy preds labels = Ok (Fin a) /\
    (0 <= a <= 1)%Q /\
    ((a == 1)%Q <->
     map (fun row => Z.of_nat (argmax_index row)) preds = labels).
Proof.
  intros Hl Hlen Hrows. exists (batch_accuracy preds labels).
  split; [by apply flat_accuracy_ok|]. unfold batch_accuracy.
  set (pred_flat := map (fun row => Z.of_nat (argmax_index row)) preds).
  assert (Hlen' : length pred_flat = length labels)
    by (subst pred_flat; by rewrite length_map).
  destruct labels as [|l ls]; [done|].
  pose proof (count_equal_le pred_flat (l :: ls)) as Hle. cbn [length] in Hle.
  cbn [length]. destruct (ratio_bounds _ _ Hle) as [Hb Hone]. split; [exact Hb|].
  rewrite Hone. change (S (length ls)) with (length (l :: ls)).
  apply (count_equal_all _ _ Hlen').
Qed.

(** A run of [test] over a non-empty stream of batches in shape. *)
Lemma test_run (DataLoader : Z -> string -> Z -> list Batch)
    (args : Args) (order : Z) w :
  let batches := DataLoader order "test" (batch_size args) in
  batches <> [] -> Forall (well_shaped (model w)) batches ->
  exists q,
    test DataLoader args order w = (map EvInfer batches, w, Ok (Fin q)) /\
    (q == Qsum (map (accuracy_under (model w)) batches)
          / inject_Z (Z.of_nat (length batches)))%Q.
Proof.
  intros batches Hnil Hshape.
  destruct (test_loop_ok batches w 0%Q 0 Hshape) as (y & Hloop & Hy).
  assert (Hlen : (0 + length batches =? 0) = false)
    by (apply Nat.eqb_neq; destruct batches; [done|cbn; lia]).
  eexists. split.
  - unfold test, bind. fold batches. rewrite Hloop.
    cbn [fst snd]. rewrite Hlen. unfold ret. cbn [np_div_nat].
    by rewrite app_nil_r.
  - cbn [Nat.add]. unfold Qsum. rewrite Hy. apply Qdiv_comp; [ring|reflexivity].
Qed.

Lemma accuracy_under_bounds (m : Mdl) (b : Batch) :
  well_shaped m b -> (0 <= accuracy_under m b <= 1)%Q.
Proof.
  intros (Hl & Hlen & Hrows). unfold accuracy_under, batch_accuracy.
  destruct (labels b) as [|l ls] eqn:E; [done|].
  pose proof (count_equal_le
    (map (fun row => Z.of_nat (argmax_index row))
         (infer m (contents b) (attn_masks b))) (l :: ls)) as Hle.
  cbn [length] in *. by destruct (ratio_bounds _ _ Hle) as [Hb _].
Qed.

Lemma accuracies_sum_bounds (m : Mdl) (batches : list Batch) :
  Forall (well_shaped m) batches ->
  (0 <= Qsum (map (accuracy_under m) batches)
     <= inject_Z (Z.of_nat (length batches)))%Q.
Proof.
  induction 1 as [|b bs Hb _ [IH0 IH1]]; unfold Qsum in *;
    cbn [map fold_right length].
  - split; apply Qle_refl.
  - destruct (accuracy_under_bounds m b Hb) as [H0 H1].
    rewrite Nat2Z.inj_succ, <- Z.add_1_l, inject_Z_plus. split.
    + apply (Qle_trans _ (0 + 0)%Q); [apply Qle_refl|by apply Qplus_le_compat].
    + by apply Qplus_le_compat.
Qed.

(** X15.  Over a non-empty held-out stream of batches in shape, [test]
    reports an accuracy, and it lies between 0 and 1. *)
Theorem test_accuracy_bounds
    (DataLoader : Z -> string -> Z -> list Batch)
    (args : Args) (order : Z) w :
  let batches := DataLoader order "test" (batch_size args) in
  batches <> [] -> Forall (well_shaped (model w)) batches ->
  exists q,
    result_of (test DataLoader args order w) = Ok (Fin q) /\ (0 <= q <= 1)%Q.
Proof.
  intros batches Hnil Hshape.
  destruct (test_run DataLoader args order w Hnil Hshape) as (q & Hrun & Hq).
  exists q. rewrite Hrun. split; [reflexivity|].
  fold batches in Hq. rewrite Hq. clear Hrun Hq.
  pose proof (accuracies_sum_bounds (model w) batches Hshape) as [Hs0 Hs1].
  assert (HM : (0 < inject_Z (Z.of_nat (length batches)))%Q).
  { unfold Qlt. cbn. destruct batches; [done|]. cbn [length]. lia. }
  split.
  - apply Qle_shift_div_l; [exact HM|]. by rewrite Qmult_0_l.
  - apply Qle_shift_div_r; [exact HM|]. by rewrite Qmult_1_l.
Qed.

End EvaluatorFacts.

(** X16.  A run of [train] whose epochs complete steps the optimizer
    once for every batch of every epoch, [E * M] times in all, and saves
    [E] checkpoints. *)
Theorem updates_per_run {Mdl Snapshot : Type} {cls : Classifier Mdl Snapshot}
    (rng : nat -> nat) (DataLoader : Z -> string -> Z -> list Batch)
    (args : Args) (order : Z) (w : @World Mdl Snapshot) :
  let batches := DataLoader order "train" (batch_size args) in
  let E := Z.to_nat (epochs args) in
  can_store w -> Forall nonempty batches -> batches <> [] ->
  let run := train rng DataLoader args order w in
  optimizer_updates (trace_of run) = E * length batches /\
  length (checkpoints (trace_of run)) = E.
Proof.
  intros batches E Hc Hne Hnil run.
  destruct (train_ok rng DataLoader args order w Hc Hne Hnil)
    as (t & w' & tvs & Hloop & Hrun).
  destruct (epochs_loop_ok rng order batches E 0 (set_train_loss_set [] w)
              Hc Hne Hnil)
    as (t' & w'' & tvs' & Hloop' & Hcp & _ & Hupd & _).
  fold batches E in Hloop. rewrite Hloop in Hloop'. injection Hloop' as <- _ _.
  subst run. rewrite Hrun. cbn [trace_of fst]. split; [exact Hupd|].
  by rewrite Hcp, length_map, length_seq.
Qed.

(** * Concrete runs, continued *)

(** X1 at the mode [eval]. *)
Lemma other_mode_does_nothing_witness :
  mode (Toy.args "eval" 1) <> "train" /\
  mode (Toy.args "eval" 1) <> "test" /\
  main (fun _ => 0) (Toy.loader (Toy.singles 3) Toy.held_out4) (fun _ => 0) 5
       (Toy.args "eval" 1) (Toy.world 0) = ([], Toy.world 0, Ok tt).
Proof.
  assert (H1 : mode (Toy.args "eval" 1) <> "train") by discriminate.
  assert (H2 : mode (Toy.args "eval" 1) <> "test") by discriminate.
  exact (conj H1 (conj H2
    (other_mode_does_nothing (fun _ => 0) (Toy.loader (Toy.singles 3) Toy.held_out4)
       (fun _ => 0) 5 (Toy.args "eval" 1) (Toy.world 0) H1 H2))).
Defined.

(** X3 at the orders 1 and 2 and the first epoch. *)
Lemma memory_checkpoint_shared_across_orders_witness :
  let w1 := world_of (save_checkpoint 10 1 1 (Some []) None (Toy.world 0)) in
  let w2 := world_of (save_checkpoint 20 2 1
                        (Some [mkExample [1%Z] [1%Z] 1%Z]) None w1) in
  (1 <> 2)%Z /\
  files w2 !! memory_path 1 = Some (MemoryBlob [mkExample [1%Z] [1%Z] 1%Z]).
Proof.
  assert (Ho : (1 <> 2)%Z) by lia.
  destruct (memory_checkpoint_shared_across_orders 10 20 1%Z 2%Z 1%Z []
              [mkExample [1%Z] [1%Z] 1%Z] (Toy.world 0) Ho) as (_ & Hmem & _).
  exact (conj Ho Hmem).
Defined.

(** X4 at two epochs over three single-example batches. *)
Lemma test_never_finds_training_checkpoint_witness :
  let w1 := world_of (main (fun _ => 0) (Toy.loader (Toy.singles 3) Toy.held_out4)
                           (fun _ => 0) 5 (Toy.args "train" 2) (Toy.world 0)) in
  files (Toy.world 0) !! test_checkpoint = None /\
  result_of (main (fun _ => 0) (Toy.loader (Toy.singles 3) Toy.held_out4)
                  (fun _ => 0) 5 (Toy.args "test" 2) w1) =
    Raise FileNotFoundError.
Proof.
  assert (Hmissing : files (Toy.world 0) !! test_checkpoint = None) by reflexivity.
  assert (Hcap : 0 < 5) by lia.
  assert (Hnil : Toy.singles 3 <> []) by discriminate.
  destruct (test_never_finds_training_checkpoint (fun _ => 0)
              (Toy.loader (Toy.singles 3) Toy.held_out4) (fun _ => 0) 5
              (Toy.args "train" 2) (Toy.args "test" 2) (Toy.world 0)
              eq_refl eq_refl Hcap (singles_nonempty 3) Hnil Hmissing)
    as [_ Hres].
  exact (conj Hmissing Hres).
Defined.

(** X5 at an empty loader and two epochs. *)
Lemma train_on_empty_stream_witness :
  Toy.loader [] [] 1%Z "train" (batch_size (Toy.args "train" 2)) = [] /\
  (0 < epochs (Toy.args "train" 2))%Z /\
  result_of (train (fun _ => 0) (Toy.loader [] []) (Toy.args "train" 2) 1
                   (Toy.world 5)) = Raise ZeroDivisionError.
Proof.
  assert (Hempty : Toy.loader [] [] 1%Z "train" (batch_size (Toy.args "train" 2)) = [])
    by reflexivity.
  assert (Hepochs : (0 < epochs (Toy.args "train" 2))%Z) by (cbn; lia).
  destruct (train_on_empty_stream (fun _ => 0) (Toy.loader [] [])
              (Toy.args "train" 2) 1%Z (Toy.world 5) Hempty Hepochs) as [Hres _].
  exact (conj Hempty (conj Hepochs Hres)).
Defined.

(** X6 at zero epochs. *)
Lemma train_without_epochs_witness :
  (epochs (Toy.args "train" 0) <= 0)%Z /\
  result_of (train (fun _ => 0) (Toy.loader (Toy.singles 3) [])
                   (Toy.args "train" 0) 1 (Toy.world 5)) = Raise TypeError.
Proof.
  assert (Hepochs : (epochs (Toy.args "train" 0) <= 0)%Z) by (cbn; lia).
  destruct (train_without_epochs (fun _ => 0) (Toy.loader (Toy.singles 3) [])
              (Toy.args "train" 0) 1%Z (Toy.world 5) Hepochs) as [Hres _].
  exact (conj Hepochs Hres).
Defined.

(** X7 at four epochs over a hundred single-example batches: memory is
    never sampled. *)
Lemma replay_schedule_restarts_witness :
  let run := train (fun _ => 0) (Toy.loader (Toy.singles 100) [])
                   (Toy.args "train" 4) 1 (Toy.world 50) in
  can_store (Toy.world 50) /\
  length (Toy.singles 100) < 180 /\
  sampled_from (trace_of run) = [].
Proof.
  assert (Hc : can_store (Toy.world 50)) by (unfold can_store; cbn; lia).
  assert (Hnil : Toy.singles 100 <> []) by discriminate.
  assert (Hsmall : length (Toy.singles 100) < 180)
    by (unfold Toy.singles; rewrite length_map, length_seq; lia).
  destruct (replay_schedule_restarts (fun _ => 0) (Toy.loader (Toy.singles 100) [])
              (Toy.args "train" 4) 1%Z (Toy.world 50) Hc (singles_nonempty 100) Hnil)
    as (_ & _ & Hnever).
  exact (conj Hc (conj Hsmall (Hnever Hsmall))).
Defined.

(** X8 at two epochs over three single-example batches. *)
Lemma stream_pushed_every_epoch_witness :
  let run := train (fun _ => 0) (Toy.loader (Toy.singles 3) [])
                   (Toy.args "train" 2) 1 (Toy.world 5) in
  can_store (Toy.world 5) /\
  pushed_batches (trace_of run) = Toy.singles 3 ++ Toy.singles 3.
Proof.
  assert (Hc : can_store (Toy.world 5)) by (unfold can_store; cbn; lia).
  assert (Hnil : Toy.singles 3 <> []) by discriminate.
  destruct (stream_pushed_every_epoch (fun _ => 0) (Toy.loader (Toy.singles 3) [])
              (Toy.args "train" 2) 1%Z (Toy.world 5) Hc (singles_nonempty 3) Hnil)
    as [Hpushed _].
  exact (conj Hc Hpushed).
Defined.

(** X9 at two epochs over three single-example batches. *)
Lemma loss_list_length_witness :
  let run := train (fun _ => 0) (Toy.loader (Toy.singles 3) [])
                   (Toy.args "train" 2) 1 (Toy.world 5) in
  can_store (Toy.world 5) /\
  length (train_loss_set (world_of run)) = 6.
Proof.
  assert (Hc : can_store (Toy.world 5)) by (unfold can_store; cbn; lia).
  assert (Hnil : Toy.singles 3 <> []) by discriminate.
  exact (conj Hc
    (loss_list_length (fun _ => 0) (Toy.loader (Toy.singles 3) [])
       (Toy.args "train" 2) 1%Z (Toy.world 5) Hc (singles_nonempty 3) Hnil)).
Defined.

(** X10 at one epoch over three single-example batches. *)
Lemma epoch_loss_is_mean_witness :
  let run := train_epoch (fun _ => 0) 1 (Toy.singles 3) 0 (Toy.world 5) in
  can_store (Toy.world 5) /\
  exists tv losses,
    result_of run = Ok tv /\ length losses = 3 /\ (tr_loss tv == Qsum losses)%Q.
Proof.
  assert (Hc : can_store (Toy.world 5)) by (unfold can_store; cbn; lia).
  assert (Hnil : Toy.singles 3 <> []) by discriminate.
  destruct (epoch_loss_is_mean (fun _ => 0) 1%Z (Toy.singles 3) 0 (Toy.world 5)
              Hc (singles_nonempty 3) Hnil)
    as (tv & losses & Hres & _ & Hlen & Hsum & _).
  refine (conj Hc _). exists tv, losses. exact (conj Hres (conj Hlen Hsum)).
Defined.

(** X11 at two rows, both predicted correctly. *)
Lemma flat_accuracy_bounds_witness :
  [1; 0]%Z <> [] /\
  length [[0; 5]; [7; 1]]%Q = length [1; 0]%Z /\
  Forall (fun row => row <> []) [[0; 5]; [7; 1]]%Q /\
  exists a,
    flat_accuracy [[0; 5]; [7; 1]]%Q [1; 0]%Z = Ok (Fin a) /\ (a == 1)%Q.
Proof.
  assert (Hl : [1; 0]%Z <> []) by discriminate.
  assert (Hlen : length [[0; 5]; [7; 1]]%Q = length [1; 0]%Z) by reflexivity.
  assert (Hrows : Forall (fun row => row <> []) [[0; 5]; [7; 1]]%Q)
    by (repeat constructor; discriminate).
  destruct (flat_accuracy_bounds _ _ Hl Hlen Hrows) as (a & Hacc & _ & Hone).
  refine (conj Hl (conj Hlen (conj Hrows _))).
  exists a. split; [exact Hacc|]. apply Hone. reflexivity.
Defined.

(** X15 at the four held-out batches. *)
Lemma test_accuracy_bounds_witness :
  Toy.held_out4 <> [] /\
  Forall (well_shaped (model (Toy.world 1))) Toy.held_out4 /\
  exists q,
    result_of (test (Toy.loader [] Toy.held_out4) (Toy.args "test" 1) 1
                    (Toy.world 1)) = Ok (Fin q) /\
    (0 <= q <= 1)%Q.
Proof.
  assert (Hnil : Toy.held_out4 <> []) by discriminate.
  assert (Hshape : Forall (well_shaped (model (Toy.world 1))) Toy.held_out4)
    by (repeat constructor; discriminate).
  exact (conj Hnil (conj Hshape
    (test_accuracy_bounds (Toy.loader [] Toy.held_out4) (Toy.args "test" 1) 1%Z
       (Toy.world 1) Hnil Hshape))).
Defined.

(** X16 at two epochs over three single-example batches. *)
Lemma updates_per_run_witness :
  let run := train (fun _ => 0) (Toy.loader (Toy.singles 3) [])
                   (Toy.args "train" 2) 1 (Toy.world 5) in
  can_store (Toy.world 5) /\
  optimizer_updates (trace_of run) = 6.
Proof.
  assert (Hc : can_store (Toy.world 5)) by (unfold can_store; cbn; lia).
  assert (Hnil : Toy.singles 3 <> []) by discriminate.
  destruct (updates_per_run (fun _ => 0) (Toy.loader (Toy.singles 3) [])
              (Toy.args "train" 2) 1%Z (Toy.world 5) Hc (singles_nonempty 3) Hnil)
    as [Hupd _].
  exact (conj Hc Hupd).
Defined.
